(** * Order book of the matching engine: model and properties

    Shallow embedding of [internal/engine/orderbook.go].

    Modelling conventions.
    - [float64] prices and quantities are represented by [Z]: the
      integer [k] stands for the [float64] value [k * u], where [u] is
      one power of two fixed for the whole run ([u = 1]: whole
      numbers).  Comparisons of such values are those of [Z].  A
      [float64] addition or subtraction of such values is the exact one
      of [Z] as long as operands and result lie within [maxExact]
      (2^53 units); beyond that the program rounds and the model does
      not.  A property that chains several additions and subtractions
      therefore carries that bound as a hypothesis ([Exact]); a
      property that states one operation of the code states it as the
      code performs it.  NaN, infinities and signed zeros are outside
      the model.  [int64] is a [Z] with its two's-complement
      wrap-around written out ([wrap_int64]).
    - The string-typed enumerations ([OrderSide], [OrderType],
      [OrderStatus]) stay strings, as in the source: an order may carry
      any string as its side, and [getTree] sends everything that is not
      ["BUY"] to the sell tree.
    - The red-black tree of [github.com/emirpasic/gods] is an external
      library.  It is modelled by what its interface promises: a
      comparator together with the nodes in iteration (in-order)
      sequence; [Put], [Get] and [Remove] walk that sequence with the
      comparator exactly as the tree descends with it.
    - [*Order] and [*PriceLevel] are pointers in the source.  A level is
      only referenced from its tree node, so mutating it in place is
      modelled by storing the new level under the same key.  Every
      pointer handed to [AddOrder] is taken to denote a distinct object,
      so an order is represented by its value and the stamping of
      [SequenceNum] shows in the stored value.
    - The mutex is not modelled: every method runs under the lock, so a
      method is one atomic transition of the book.
    - [make] in [GetDepth] comes back only for a capacity that the
      run-time accepts and that the heap can provide; the latter is a
      parameter of the model of [GetDepth]. *)

From stdpp Require Import gmap strings list sorting.
From Stdlib Require Import ZArith Lia Sorted.

Local Open Scope Z_scope.

(** ** Machine integers *)

Definition MaxInt64 : Z := 2 ^ 63 - 1.
Definition MinInt64 : Z := - 2 ^ 63.


(** The capacity beyond which [make([]PriceLevel, 0, cap)] panics
    ("makeslice: cap out of range") whatever the free memory, on a
    64-bit run-time: it refuses more than 2^48 bytes, and a
    [PriceLevel] (a [float64], a slice header, a [float64]) takes 40. *)
Definition runtimeMaxCap : Z := 2 ^ 48 / 40.

(** Result of an [int64] operation whose mathematical value is [x]. *)
Definition wrap_int64 (x : Z) : Z := (x + 2 ^ 63) mod 2 ^ 64 - 2 ^ 63.

(** ** Orders and price levels *)

Definition OrderSide := string.
Definition Buy : OrderSide := "BUY"%string.
Definition Sell : OrderSide := "SELL"%string.

Definition OrderType := string.
Definition Limit : OrderType := "LIMIT"%string.
Definition Market : OrderType := "MARKET"%string.

Definition OrderStatus := string.
Definition Pending : OrderStatus := "PENDING"%string.
Definition Partial : OrderStatus := "PARTIAL"%string.
Definition Filled : OrderStatus := "FILLED"%string.
Definition Cancelled : OrderStatus := "CANCELLED"%string.

Module Order.
Record t : Type := mk {
  ID : string;
  UserID : string;
  Symbol : string;
  Side : OrderSide;
  Type_ : OrderType;
  Price : Z;
  Quantity : Z;
  FilledQty : Z;
  Status : OrderStatus;
  CreatedAt : Z;
  UpdatedAt : Z;
  SequenceNum : Z
}.

(** [order.SequenceNum = n] *)
Definition setSequenceNum (o : t) (n : Z) : t :=
  mk (ID o) (UserID o) (Symbol o) (Side o) (Type_ o) (Price o)
     (Quantity o) (FilledQty o) (Status o) (CreatedAt o) (UpdatedAt o) n.

(** [order.Quantity - order.FilledQty] *)
Definition residual (o : t) : Z := Quantity o - FilledQty o.
End Order.

Module PriceLevel.
Record t : Type := mk {
  Price : Z;
  Orders : list Order.t;
  Volume : Z
}.
End PriceLevel.

(** ** The ordered map ([redblacktree.Tree]) *)

Module redblacktree.
Definition Comparator := Z -> Z -> Z.

Section Tree.
Context {V : Type}.

Record Node : Type := mkNode { Key : Z; Value : V }.

(** A tree is its comparator and its nodes in iteration order. *)
Record Tree : Type := mkTree { Cmp : Comparator; nodes : list Node }.

Definition NewWith (c : Comparator) : Tree := mkTree c [].

Fixpoint put (c : Comparator) (k : Z) (v : V) (ns : list Node) : list Node :=
  match ns with
  | [] => [mkNode k v]
  | n :: rest =>
      let compare := c k (Key n) in
      if compare =? 0 then mkNode k v :: rest
      else if compare <? 0 then mkNode k v :: n :: rest
      else n :: put c k v rest
  end.

Fixpoint get (c : Comparator) (k : Z) (ns : list Node) : option V :=
  match ns with
  | [] => None
  | n :: rest =>
      let compare := c k (Key n) in
      if compare =? 0 then Some (Value n)
      else if compare <? 0 then None
      else get c k rest
  end.

Fixpoint remove (c : Comparator) (k : Z) (ns : list Node) : list Node :=
  match ns with
  | [] => []
  | n :: rest =>
      let compare := c k (Key n) in
      if compare =? 0 then rest
      else if compare <? 0 then ns
      else n :: remove c k rest
  end.

(** Assignment through the value pointer that [Get] returned for
    [k]: the node reached by the same descent keeps its key and
    holds the new value. *)
Fixpoint store (c : Comparator) (k : Z) (v : V) (ns : list Node) : list Node :=
  match ns with
  | [] => []
  | n :: rest =>
      let compare := c k (Key n) in
      if compare =? 0 then mkNode (Key n) v :: rest
      else if compare <? 0 then ns
      else n :: store c k v rest
  end.

(** [tree.Put(key, value)]: insert, or overwrite the node that compares equal. *)
Definition Put (t : Tree) (k : Z) (v : V) : Tree :=
  mkTree (Cmp t) (put (Cmp t) k v (nodes t)).

(** [tree.Get(key)]: [Some v] is [(v, true)], [None] is [(nil, false)]. *)
Definition Get (t : Tree) (k : Z) : option V := get (Cmp t) k (nodes t).

Definition Store (t : Tree) (k : Z) (v : V) : Tree :=
  mkTree (Cmp t) (store (Cmp t) k v (nodes t)).

(** [tree.Remove(key)] *)
Definition Remove (t : Tree) (k : Z) : Tree :=
  mkTree (Cmp t) (remove (Cmp t) k (nodes t)).

(** [tree.Size()] *)
Definition Size (t : Tree) : Z := Z.of_nat (length (nodes t)).

(** [tree.Left()]: the first node in comparator order, [nil] on an empty tree. *)
Definition Left (t : Tree) : option Node := head (nodes t).

(** [tree.Iterator()]: the nodes that successive [Next()] calls visit. *)
Definition Iterator (t : Tree) : list Node := nodes t.

Definition Keys (t : Tree) : list Z := map Key (nodes t).
End Tree.

Arguments Node : clear implicits.
Arguments Tree : clear implicits.
End redblacktree.

(** ** The order book *)

Record OrderBook : Type := mkOrderBook {
  Symbol : string;
  BuyTree : redblacktree.Tree PriceLevel.t;
  SellTree : redblacktree.Tree PriceLevel.t;
  OrderMap : gmap string Order.t;
  sequence : Z
}.

(** Comparator of the buy tree: highest price first. *)
Definition buyComparator : redblacktree.Comparator := fun priceA priceB =>
  if priceA >? priceB then -1
  else if priceA <? priceB then 1
  else 0.

(** Comparator of the sell tree: lowest price first. *)
Definition sellComparator : redblacktree.Comparator := fun priceA priceB =>
  if priceA <? priceB then -1
  else if priceA >? priceB then 1
  else 0.

Definition NewOrderBook (symbol : string) : OrderBook :=
  mkOrderBook symbol
    (redblacktree.NewWith buyComparator)
    (redblacktree.NewWith sellComparator)
    ∅
    0.

Definition getTree (ob : OrderBook) (side : OrderSide) : redblacktree.Tree PriceLevel.t :=
  if String.eqb side Buy then BuyTree ob else SellTree ob.

(** Write-back of a tree obtained through [getTree]: in the source the
    tree is mutated through the pointer that [getTree] returned. *)
Definition setTree (ob : OrderBook) (side : OrderSide)
    (t : redblacktree.Tree PriceLevel.t) : OrderBook :=
  if String.eqb side Buy
  then mkOrderBook (Symbol ob) t (SellTree ob) (OrderMap ob) (sequence ob)
  else mkOrderBook (Symbol ob) (BuyTree ob) t (OrderMap ob) (sequence ob).

(** The order as [AddOrder] stores it: [ob.sequence++; order.SequenceNum = ob.sequence]. *)
Definition stamp (ob : OrderBook) (order : Order.t) : Order.t :=
  Order.setSequenceNum order (wrap_int64 (sequence ob + 1)).

Definition AddOrder (ob : OrderBook) (order : Order.t) : OrderBook :=
  let seq := wrap_int64 (sequence ob + 1) in
  let order := Order.setSequenceNum order seq in
  let ob := mkOrderBook (Symbol ob) (BuyTree ob) (SellTree ob)
              (<[Order.ID order := order]> (OrderMap ob)) seq in
  let tree := getTree ob (Order.Side order) in
  (* level.Orders = append(level.Orders, order); level.Volume += order.Quantity *)
  let append level :=
    PriceLevel.mk (PriceLevel.Price level)
      (PriceLevel.Orders level ++ [order])
      (PriceLevel.Volume level + Order.Quantity order) in
  let tree :=
    match redblacktree.Get tree (Order.Price order) with
    | Some level => redblacktree.Store tree (Order.Price order) (append level)
    | None =>
        redblacktree.Put tree (Order.Price order)
          (append (PriceLevel.mk (Order.Price order) [] 0))
    end in
  setTree ob (Order.Side order) tree.

(** The removal loop of [RemoveOrder]: [seen] are the orders already
    passed over ([level.Orders[:i]]).  At the first order whose
    identifier matches, the result is
    [append(level.Orders[:i], level.Orders[i+1:]...)]; [None] when the
    loop runs to its end without a match. *)
Fixpoint removeLoop (orderID : string) (seen rest : list Order.t) : option (list Order.t) :=
  match rest with
  | [] => None
  | o :: rest' =>
      if String.eqb (Order.ID o) orderID then Some (seen ++ rest')
      else removeLoop orderID (seen ++ [o]) rest'
  end.

(** [RemoveOrder] returns the new book and the removed order ([None] is [nil]). *)
Definition RemoveOrder (ob : OrderBook) (orderID : string) : OrderBook * option Order.t :=
  match OrderMap ob !! orderID with
  | None => (ob, None)
  | Some order =>
      let ob := mkOrderBook (Symbol ob) (BuyTree ob) (SellTree ob)
                  (delete orderID (OrderMap ob)) (sequence ob) in
      let tree := getTree ob (Order.Side order) in
      match redblacktree.Get tree (Order.Price order) with
      | None => (ob, Some order)
      | Some level =>
          let remainingQty := Order.Quantity order - Order.FilledQty order in
          let level :=
            match removeLoop orderID [] (PriceLevel.Orders level) with
            | Some orders =>
                PriceLevel.mk (PriceLevel.Price level) orders
                  (PriceLevel.Volume level - remainingQty)
            | None => level
            end in
          let tree := redblacktree.Store tree (Order.Price order) level in
          let tree :=
            if (length (PriceLevel.Orders level) =? 0)%nat
            then redblacktree.Remove tree (Order.Price order)
            else tree in
          (setTree ob (Order.Side order) tree, Some order)
      end
  end.

Definition GetBestBid (ob : OrderBook) : Z * bool :=
  if redblacktree.Size (BuyTree ob) =? 0 then (0, false)
  else
    match redblacktree.Left (BuyTree ob) with
    | Some node => (redblacktree.Key node, true)
    | None => (0, false)
    end.

Definition GetBestAsk (ob : OrderBook) : Z * bool :=
  if redblacktree.Size (SellTree ob) =? 0 then (0, false)
  else
    match redblacktree.Left (SellTree ob) with
    | Some node => (redblacktree.Key node, true)
    | None => (0, false)
    end.

Definition GetSpread (ob : OrderBook) : Z :=
  let '(bid, hasBid) := GetBestBid ob in
  let '(ask, hasAsk) := GetBestAsk ob in
  if negb hasBid || negb hasAsk then 0
  else ask - bid.

(** One of the two loops of [GetDepth]:
    [for it.Next() && count < levels { out = append(out, *level); count++ }]. *)
Fixpoint depthLoop (it : list (redblacktree.Node PriceLevel.t)) (count levels : Z)
    (out : list PriceLevel.t) : list PriceLevel.t :=
  match it with
  | [] => out
  | node :: it' =>
      if count <? levels
      then depthLoop it' (count + 1) levels (out ++ [redblacktree.Value node])
      else out
  end.

(** [make([]PriceLevel, 0, levels)] comes back: the capacity is not
    negative, not beyond what the run-time accepts, and not beyond
    [avail], the largest capacity the heap can provide at the call. *)
Definition makeGranted (avail levels : Z) : bool :=
  (0 <=? levels) && (levels <=? runtimeMaxCap) && (levels <=? avail).

(** [GetDepth]: [None] stands for a call that does not return, because
    [make] panics on the capacity or the process runs out of memory. *)
Definition GetDepth (avail : Z) (ob : OrderBook) (levels : Z)
    : option (list PriceLevel.t * list PriceLevel.t) :=
  if makeGranted avail levels then
    let bids := depthLoop (redblacktree.Iterator (BuyTree ob)) 0 levels [] in
    let asks := depthLoop (redblacktree.Iterator (SellTree ob)) 0 levels [] in
    Some (bids, asks)
  else None.

Definition GetOrder (ob : OrderBook) (orderID : string) : option Order.t :=
  OrderMap ob !! orderID.

(** [len(ob.OrderMap)] *)
Definition Size (ob : OrderBook) : Z := Z.of_nat (size (OrderMap ob)).

(** ** Runs of the book *)

Inductive Op : Type :=
| OpAdd (order : Order.t)
| OpRemove (orderID : string).

Definition step (ob : OrderBook) (op : Op) : OrderBook :=
  match op with
  | OpAdd order => AddOrder ob order
  | OpRemove orderID => fst (RemoveOrder ob orderID)
  end.

Definition run (ops : list Op) (ob : OrderBook) : OrderBook := fold_left step ops ob.

(** The sequence numbers handed out along a run, oldest first. *)
Fixpoint stamps (ops : list Op) (ob : OrderBook) : list Z :=
  match ops with
  | [] => []
  | OpAdd order :: ops' =>
      Order.SequenceNum (stamp ob order) :: stamps ops' (AddOrder ob order)
  | OpRemove orderID :: ops' => stamps ops' (fst (RemoveOrder ob orderID))
  end.

(** Book states that the exported mutators can produce. *)
Inductive Reachable : OrderBook -> Prop :=
| Reachable_new symbol : Reachable (NewOrderBook symbol)
| Reachable_add ob order : Reachable ob -> Reachable (AddOrder ob order)
| Reachable_remove ob orderID : Reachable ob -> Reachable (fst (RemoveOrder ob orderID)).

(** ** Vocabulary of the properties *)

(** Sum of the residual quantities of a level's orders. *)
Definition sumResiduals (orders : list Order.t) : Z :=
  fold_right (fun o acc => Order.residual o + acc) 0 orders.

(** The levels of a tree, in iteration order. *)
Definition levelsOf (t : redblacktree.Tree PriceLevel.t) : list PriceLevel.t :=
  map redblacktree.Value (redblacktree.nodes t).

(** A comparator that orders the keys totally, as both comparators of
    [NewOrderBook] do. *)
Class TotalComparator (c : redblacktree.Comparator) : Prop := {
  cmp_eq : forall a b, c a b = 0 <-> a = b;
  cmp_flip : forall a b, c a b < 0 <-> 0 < c b a;
  cmp_trans : forall a b d, c a b < 0 -> c b d < 0 -> c a d < 0
}.

(** Nodes in strictly increasing comparator order. *)
Fixpoint sorted {V} (c : redblacktree.Comparator) (ns : list (redblacktree.Node V)) : Prop :=
  match ns with
  | [] => True
  | n :: rest =>
      Forall (fun m => c (redblacktree.Key n) (redblacktree.Key m) < 0) rest /\ sorted c rest
  end.

(** What every tree built by [NewOrderBook] and the mutators satisfies:
    it keeps its comparator, its nodes are in comparator order, and each
    level sits under its own price. *)
Record tree_ok (c : redblacktree.Comparator) (t : redblacktree.Tree PriceLevel.t) : Prop := {
  tree_ok_cmp : redblacktree.Cmp t = c;
  tree_ok_sorted : sorted c (redblacktree.nodes t);
  tree_ok_price :
    Forall (fun n => PriceLevel.Price (redblacktree.Value n) = redblacktree.Key n)
      (redblacktree.nodes t)
}.

Definition book_ok (ob : OrderBook) : Prop :=
  tree_ok buyComparator (BuyTree ob) /\ tree_ok sellComparator (SellTree ob).

(** Every level of the tree holds an order. *)
Definition levels_nonempty (t : redblacktree.Tree PriceLevel.t) : Prop :=
  Forall (fun n => PriceLevel.Orders (redblacktree.Value n) <> []) (redblacktree.nodes t).

(** [orderID] is live and found first: it is indexed, its order rests
    in the level at its price on its side, and no order ahead of it in
    that level carries the identifier.  [before] and [after] are the
    orders of the level around it. *)
Definition live (ob : OrderBook) (orderID : string) (order : Order.t)
    (level : PriceLevel.t) (before after : list Order.t) : Prop :=
  OrderMap ob !! orderID = Some order /\
  redblacktree.Get (getTree ob (Order.Side order)) (Order.Price order) = Some level /\
  PriceLevel.Orders level = before ++ order :: after /\
  Order.ID order = orderID /\
  Forall (fun o => Order.ID o <> orderID) before.

(** [orderID] is indexed but no level exists at its order's price on its side. *)
Definition stale (ob : OrderBook) (orderID : string) (order : Order.t) : Prop :=
  OrderMap ob !! orderID = Some order /\
  redblacktree.Get (getTree ob (Order.Side order)) (Order.Price order) = None.

(** *** Books built within the precondition of insertion *)

(** Runs in which every order handed to [AddOrder] carries an
    identifier that is not indexed at that moment and has not been
    filled yet. *)
Inductive Disciplined : OrderBook -> Prop :=
| Disciplined_new symbol : Disciplined (NewOrderBook symbol)
| Disciplined_add ob order :
    Disciplined ob ->
    OrderMap ob !! Order.ID order = None ->
    Order.FilledQty order = 0 ->
    Disciplined (AddOrder ob order)
| Disciplined_remove ob orderID :
    Disciplined ob -> Disciplined (fst (RemoveOrder ob orderID)).

(** *** Books whose volume arithmetic is exact *)





(** The test of [getTree] on an order's side. *)
Definition onBuySide (o : Order.t) : bool := String.eqb (Order.Side o) Buy.

(** The tree and the comparator that go with an outcome of that test. *)
Definition treeOf (buy : bool) (ob : OrderBook) : redblacktree.Tree PriceLevel.t :=
  if buy then BuyTree ob else SellTree ob.

Definition cmpOf (buy : bool) : redblacktree.Comparator :=
  if buy then buyComparator else sellComparator.


(** The level after the two closing assignments of [AddOrder]. *)
Definition appended (level : PriceLevel.t) (order : Order.t) : PriceLevel.t :=
  PriceLevel.mk (PriceLevel.Price level)
    (PriceLevel.Orders level ++ [order])
    (PriceLevel.Volume level + Order.Quantity order).

(** The level after the removal loop of [RemoveOrder]. *)
Definition afterLoop (level : PriceLevel.t) (orderID : string) (order : Order.t) : PriceLevel.t :=
  match removeLoop orderID [] (PriceLevel.Orders level) with
  | Some orders =>
      PriceLevel.mk (PriceLevel.Price level) orders
        (PriceLevel.Volume level - (Order.Quantity order - Order.FilledQty order))
  | None => level
  end.

(** A level is consistent with the index [om]: its volume is the sum of
    its residuals, no identifier occurs twice in it, and each of its
    orders is the indexed one and belongs at this price on this side. *)
Record level_inv (om : gmap string Order.t) (buy : bool)
    (n : redblacktree.Node PriceLevel.t) : Prop := {
  level_volume :
    PriceLevel.Volume (redblacktree.Value n)
    = sumResiduals (PriceLevel.Orders (redblacktree.Value n));
  level_nodup : NoDup (Order.ID <$> PriceLevel.Orders (redblacktree.Value n));
  level_indexed :
    Forall (fun o => om !! Order.ID o = Some o /\
                     Order.Price o = redblacktree.Key n /\
                     onBuySide o = buy)
      (PriceLevel.Orders (redblacktree.Value n))
}.

(** Every index entry is filed under its own identifier and rests in
    the level at its price on its side. *)
Definition index_inv (ob : OrderBook) : Prop :=
  forall orderID order,
    OrderMap ob !! orderID = Some order ->
    Order.ID order = orderID /\
    exists level,
      redblacktree.Get (getTree ob (Order.Side order)) (Order.Price order) = Some level /\
      order ∈ PriceLevel.Orders level.

Definition book_inv (ob : OrderBook) : Prop :=
  book_ok ob /\
  (forall buy, Forall (level_inv (OrderMap ob) buy) (redblacktree.nodes (treeOf buy ob))) /\
  index_inv ob.

(** *** Vocabulary of the further properties *)

(** The key of the first node of a tree, if any: what [Left()] offers
    to [GetBestBid] and [GetBestAsk]. *)
Definition bestKey (t : redblacktree.Tree PriceLevel.t) : option Z :=
  redblacktree.Key <$> redblacktree.Left t.

(** Orders in admission order, oldest first. *)
Definition bySequence (orders : list Order.t) : Prop :=
  StronglySorted (fun a b => Order.SequenceNum a < Order.SequenceNum b) orders.

(** The orders of a level are in admission order and none carries a
    sequence number above [bound]. *)
Definition seq_ok (bound : Z) (level : PriceLevel.t) : Prop :=
  bySequence (PriceLevel.Orders level) /\
  Forall (fun o => Order.SequenceNum o <= bound) (PriceLevel.Orders level).

Definition seq_inv (ob : OrderBook) : Prop :=
  forall buy,
    Forall (fun n => seq_ok (sequence ob) (redblacktree.Value n))
      (redblacktree.nodes (treeOf buy ob)).

(** Every order of the level carries the level's price and the side
    that [buy] stands for. *)
Definition placed (buy : bool) (level : PriceLevel.t) : Prop :=
  Forall (fun o => Order.Price o = PriceLevel.Price level /\ onBuySide o = buy)
    (PriceLevel.Orders level).

(** Every order handed to [AddOrder] along the run carries an
    identifier that is not indexed when it is added. *)
Fixpoint freshAdds (ops : list Op) (ob : OrderBook) : Prop :=
  match ops with
  | [] => True
  | OpAdd order :: ops' =>
      OrderMap ob !! Order.ID order = None /\ freshAdds ops' (AddOrder ob order)
  | OpRemove orderID :: ops' => freshAdds ops' (fst (RemoveOrder ob orderID))
  end.

(** Number of orders resting in the levels of a tree, and in the book. *)
Definition restingIn (t : redblacktree.Tree PriceLevel.t) : nat :=
  sum_list_with (fun n => length (PriceLevel.Orders (redblacktree.Value n)))
    (redblacktree.nodes t).

Definition resting (ob : OrderBook) : Z :=
  Z.of_nat (restingIn (BuyTree ob) + restingIn (SellTree ob)).

(** ** Sample data *)

Definition limitOrder (id : string) (side : OrderSide) (price qty filled : Z) : Order.t :=
  Order.mk id "u1"%string "BTC-USD"%string side Limit price qty filled
    (if filled =? 0 then Pending else Partial) 0 0 0.

Definition emptyBook : OrderBook := NewOrderBook "BTC-USD"%string.

Definition orderA : Order.t := limitOrder "A"%string Buy 100 1 0.
Definition orderB : Order.t := limitOrder "B"%string Buy 100 2 0.
Definition orderC : Order.t := limitOrder "C"%string Buy 100 3 0.
Definition orderD : Order.t := limitOrder "D"%string Buy 101 4 0.
Definition orderS : Order.t := limitOrder "S"%string Sell 105 3 0.
Definition orderT : Order.t := limitOrder "T"%string Sell 103 2 0.

(** One bid level at 100 holding A, B and C in that order. *)
Definition bookABC : OrderBook :=
  run [OpAdd orderA; OpAdd orderB; OpAdd orderC] emptyBook.

(** Bids at 101 and 100, asks at 103 and 105. *)
Definition bookTwoSided : OrderBook :=
  run [OpAdd orderA; OpAdd orderB; OpAdd orderS; OpAdd orderD; OpAdd orderT] emptyBook.

(** A, B and C as the book stores them, and the level they form. *)
Definition stampedA : Order.t := Order.setSequenceNum orderA 1.
Definition stampedB : Order.t := Order.setSequenceNum orderB 2.
Definition stampedC : Order.t := Order.setSequenceNum orderC 3.
Definition levelABC : PriceLevel.t := PriceLevel.mk 100 [stampedA; stampedB; stampedC] 6.

(** A second order submitted under the identifier of B. *)
Definition orderB2 : Order.t := limitOrder "B"%string Buy 100 7 0.

Definition stampedB2 : Order.t := Order.setSequenceNum orderB2 4.

(** [bookABC] after that second order was added: the level holds
    A, B, C and the newcomer, and the index entry of B is the newcomer. *)
Definition bookReused : OrderBook := AddOrder bookABC orderB2.


(** An index entry whose level is missing: the index knows Z at 100 on
    the buy side, the buy tree only has the level at 101. *)
Definition bookStale : OrderBook :=
  let ob := AddOrder emptyBook orderD in
  mkOrderBook (Symbol ob) (BuyTree ob) (SellTree ob)
    (<["Z"%string := limitOrder "Z"%string Buy 100 1 0]> (OrderMap ob)) (sequence ob).

(** * Properties *)

(** ** Machine integers *)

Lemma wrap_int64_small (x : Z) : MinInt64 <= x <= MaxInt64 -> wrap_int64 x = x.
Proof.
  unfold wrap_int64, MinInt64, MaxInt64. intros Hx.
  rewrite Z.mod_small; lia.
Qed.

(** ** The two comparators *)

#[global] Instance buyComparator_total : TotalComparator buyComparator.
Proof.
  split; unfold buyComparator; intros;
    repeat match goal with
           | |- context [?a >? ?b] => destruct (Z.gtb_spec a b)
           | |- context [?a <? ?b] => destruct (Z.ltb_spec a b)
           | H : context [?a >? ?b] |- _ => destruct (Z.gtb_spec a b)
           | H : context [?a <? ?b] |- _ => destruct (Z.ltb_spec a b)
           end; lia.
Qed.

#[global] Instance sellComparator_total : TotalComparator sellComparator.
Proof.
  split; unfold sellComparator; intros;
    repeat match goal with
           | |- context [?a >? ?b] => destruct (Z.gtb_spec a b)
           | |- context [?a <? ?b] => destruct (Z.ltb_spec a b)
           | H : context [?a >? ?b] |- _ => destruct (Z.gtb_spec a b)
           | H : context [?a <? ?b] |- _ => destruct (Z.ltb_spec a b)
           end; lia.
Qed.

Lemma buyComparator_lt (a b : Z) : buyComparator a b < 0 <-> b < a.
Proof.
  unfold buyComparator.
  destruct (Z.gtb_spec a b); [lia|]. destruct (Z.ltb_spec a b); lia.
Qed.

Lemma sellComparator_lt (a b : Z) : sellComparator a b < 0 <-> a < b.
Proof.
  unfold sellComparator.
  destruct (Z.ltb_spec a b); [lia|]. destruct (Z.gtb_spec a b); lia.
Qed.

(** ** The ordered map *)

Section TreeFacts.
Import redblacktree.
Context {V : Type} (c : Comparator) `{!TotalComparator c}.
Implicit Types (k : Z) (v : V) (n : Node V) (ns : list (Node V)).

Lemma cmp_refl k : c k k = 0.
Proof. by apply cmp_eq. Qed.

(** Split on the three outcomes of [c k (Key n)], as the descent does. *)
Ltac compare_cases k k' :=
  let He := fresh "Heq" in
  let Hl := fresh "Hlt" in
  let Hg := fresh "Hgt" in
  destruct (Z.eqb_spec (c k k') 0) as [He|He];
  [ pose proof (proj1 (cmp_eq _ _) He)
  | destruct (Z.ltb_spec (c k k') 0) as [Hl|Hg] ].

Lemma get_below k ns :
  Forall (fun m => c k (Key m) < 0) ns -> get c k ns = None.
Proof.
  destruct 1 as [|m ns Hm _]; simpl; [done|].
  compare_cases k (Key m); [lia|done|lia].
Qed.

Lemma get_put_eq k v ns : get c k (put c k v ns) = Some v.
Proof.
  induction ns as [|n ns IH]; simpl.
  - by rewrite cmp_refl.
  - compare_cases k (Key n); simpl.
    + by rewrite cmp_refl.
    + by rewrite cmp_refl.
    + destruct (Z.eqb_spec (c k (Key n)) 0); [lia|].
      destruct (Z.ltb_spec (c k (Key n)) 0); [lia|]. exact IH.
Qed.

Lemma get_put_ne k k' v ns : k <> k' -> get c k' (put c k v ns) = get c k' ns.
Proof.
  intros Hne. induction ns as [|n ns IH]; simpl.
  - compare_cases k' k; simpl in *; congruence.
  - compare_cases k (Key n); simpl.
    + subst k. compare_cases k' (Key n); congruence.
    + compare_cases k' k; simpl in *; [congruence| |done].
      pose proof (cmp_trans _ _ _ Hlt0 Hlt) as Hkn.
      compare_cases k' (Key n); [lia|done|lia].
    + by rewrite IH.
Qed.

Lemma get_store k v ns :
  get c k (store c k v ns) = (fun _ => v) <$> get c k ns.
Proof.
  induction ns as [|n ns IH]; simpl; [done|].
  compare_cases k (Key n); simpl.
  - by rewrite Heq, Z.eqb_refl.
  - destruct (Z.eqb_spec (c k (Key n)) 0); [lia|].
    by destruct (Z.ltb_spec (c k (Key n)) 0); [|lia].
  - destruct (Z.eqb_spec (c k (Key n)) 0); [lia|].
    by destruct (Z.ltb_spec (c k (Key n)) 0); [lia|].
Qed.

Lemma get_store_ne k k' v ns : k <> k' -> get c k' (store c k v ns) = get c k' ns.
Proof.
  intros Hne. induction ns as [|n ns IH]; simpl; [done|].
  compare_cases k (Key n); simpl; [|done|by rewrite IH].
  compare_cases k' (Key n); congruence.
Qed.

Lemma Forall_put (P : Node V -> Prop) k v ns :
  P (mkNode k v) -> Forall P ns -> Forall P (put c k v ns).
Proof.
  intros Hnew. induction 1 as [|n ns Hn Hns IH]; simpl.
  - by constructor.
  - compare_cases k (Key n); repeat constructor; auto.
Qed.

Lemma Forall_store (P : Node V -> Prop) k v ns :
  P (mkNode k v) -> Forall P ns -> Forall P (store c k v ns).
Proof.
  intros Hnew. induction 1 as [|n ns Hn Hns IH]; simpl.
  - constructor.
  - compare_cases k (Key n); repeat constructor; auto. by subst k.
Qed.

Lemma Forall_remove (P : Node V -> Prop) k ns :
  Forall P ns -> Forall P (remove c k ns).
Proof.
  induction 1 as [|n ns Hn Hns IH]; simpl.
  - constructor.
  - compare_cases k (Key n); repeat constructor; auto.
Qed.

Lemma sorted_put k v ns : sorted c ns -> sorted c (put c k v ns).
Proof.
  induction ns as [|n ns IH]; simpl.
  - intros _. split; [constructor|done].
  - intros [Hall Hs]. compare_cases k (Key n); simpl.
    + subst k. by split.
    + split; [|by split]. constructor; [done|].
      eapply Forall_impl; [exact Hall|]. simpl. intros m Hm.
      by eapply cmp_trans.
    + split; [|by apply IH].
      apply Forall_put; [|done]. simpl.
      apply cmp_flip. lia.
Qed.

Lemma sorted_store k v ns : sorted c ns -> sorted c (store c k v ns).
Proof.
  induction ns as [|n ns IH]; simpl; [done|].
  intros [Hall Hs]. compare_cases k (Key n); simpl; [by split|by split|].
  split; [|by apply IH].
  clear IH Hs. induction Hall as [|m ms Hm Hms IHall]; simpl; [constructor|].
  compare_cases k (Key m); repeat constructor; auto.
Qed.

Lemma sorted_remove k ns : sorted c ns -> sorted c (remove c k ns).
Proof.
  induction ns as [|n ns IH]; simpl; [done|].
  intros [Hall Hs]. compare_cases k (Key n); simpl; [done|by split|].
  split; [by apply Forall_remove|by apply IH].
Qed.

Lemma get_remove_eq k ns : sorted c ns -> get c k (remove c k ns) = None.
Proof.
  induction ns as [|n ns IH]; simpl; [done|].
  intros [Hall Hs]. compare_cases k (Key n); simpl.
  - subst k. by apply get_below.
  - destruct (Z.eqb_spec (c k (Key n)) 0); [lia|].
    by destruct (Z.ltb_spec (c k (Key n)) 0); [|lia].
  - destruct (Z.eqb_spec (c k (Key n)) 0); [lia|].
    destruct (Z.ltb_spec (c k (Key n)) 0); [lia|]. by apply IH.
Qed.

Lemma get_remove_ne k k' ns :
  k <> k' -> sorted c ns -> get c k' (remove c k ns) = get c k' ns.
Proof.
  intros Hne. induction ns as [|n ns IH]; simpl; [done|].
  intros [Hall Hs]. compare_cases k (Key n); simpl; [|done|by rewrite IH].
  subst k. compare_cases k' (Key n); [congruence| |done].
  apply get_below. eapply Forall_impl; [exact Hall|].
  simpl. intros m Hm. by eapply cmp_trans.
Qed.

Lemma get_Some_elem k v ns : get c k ns = Some v -> mkNode k v ∈ ns.
Proof.
  induction ns as [|n ns IH]; simpl; [done|].
  compare_cases k (Key n).
  - intros [= <-]. subst k. destruct n. simpl. apply list_elem_of_here.
  - done.
  - intros Hg. apply list_elem_of_further. by apply IH.
Qed.

Lemma sorted_elem_get n ns : sorted c ns -> n ∈ ns -> get c (Key n) ns = Some (Value n).
Proof.
  induction ns as [|m ns IH]; simpl.
  - intros _ Hin. by apply not_elem_of_nil in Hin.
  - intros [Hall Hs] Hin. apply elem_of_cons in Hin as [->|Hin].
    + by rewrite cmp_refl.
    + rewrite Forall_forall in Hall. pose proof (Hall n Hin) as Hmn.
      apply cmp_flip in Hmn.
      compare_cases (Key n) (Key m); [lia|lia|]. by apply IH.
Qed.

Lemma get_None_not_elem k ns :
  sorted c ns -> get c k ns = None -> k ∉ map Key ns.
Proof.
  intros Hs Hget Hin. apply list_elem_of_fmap in Hin as [n [-> Hn]].
  by rewrite (sorted_elem_get n ns Hs Hn) in Hget.
Qed.

(** The first node is the least one in comparator order. *)
Lemma sorted_head_least n ns m :
  sorted c (n :: ns) -> m ∈ n :: ns -> c (Key n) (Key m) <= 0.
Proof.
  intros [Hall _] Hin. apply elem_of_cons in Hin as [->|Hin].
  - by rewrite cmp_refl.
  - rewrite Forall_forall in Hall. specialize (Hall m Hin). lia.
Qed.
Lemma elem_of_put n k v ns : n ∈ put c k v ns -> n = mkNode k v \/ n ∈ ns.
Proof.
  induction ns as [|m ns IH]; simpl.
  - intros Hin. left. by apply list_elem_of_singleton in Hin.
  - compare_cases k (Key m); rewrite !elem_of_cons; intuition.
Qed.

(** After a store under [k], every node is the stored one or an old
    node with another key. *)
Lemma elem_of_store n k v ns :
  sorted c ns -> n ∈ store c k v ns -> n = mkNode k v \/ (n ∈ ns /\ Key n <> k).
Proof.
  induction ns as [|m ns IH]; simpl.
  - intros _ Hin. by apply not_elem_of_nil in Hin.
  - intros [Hall Hs]. rewrite Forall_forall in Hall.
    compare_cases k (Key m); rewrite !elem_of_cons.
    + subst k. intros [->|Hin]; [by left|right]. split; [by right|].
      intros Hk. specialize (Hall n Hin). rewrite Hk, cmp_refl in Hall. lia.
    + intros [->|Hin]; right.
      * split; [by left|]. intros Hk. rewrite Hk, cmp_refl in Hlt. lia.
      * split; [by right|]. intros Hk.
        pose proof (cmp_trans _ _ _ Hlt (Hall n Hin)) as Hkn.
        rewrite Hk, cmp_refl in Hkn. lia.
    + intros [->|Hin].
      * right. split; [by left|]. intros Hk. by rewrite Hk, cmp_refl in Heq.
      * destruct (IH Hs Hin) as [->|[Hin' Hk]]; [by left|right].
        split; [by right|done].
Qed.

Lemma elem_of_remove n k ns : n ∈ remove c k ns -> n ∈ ns.
Proof.
  induction ns as [|m ns IH]; simpl; [done|].
  compare_cases k (Key m); rewrite ?elem_of_cons; intuition.
Qed.
End TreeFacts.

(** Properties of the stored values alone need nothing from the comparator. *)
Section TreeValues.
Import redblacktree.
Context {V : Type} (c : Comparator) (Q : V -> Prop).
Implicit Types (k : Z) (v : V) (ns : list (Node V)).

Lemma Forall_Value_put k v ns :
  Q v -> Forall (fun n => Q (Value n)) ns -> Forall (fun n => Q (Value n)) (put c k v ns).
Proof.
  intros Hv. induction 1 as [|n ns Hn Hns IH]; simpl.
  - by repeat constructor.
  - destruct (c k (Key n) =? 0); [by constructor|].
    destruct (c k (Key n) <? 0); by repeat constructor.
Qed.

Lemma Forall_Value_store k v ns :
  Q v -> Forall (fun n => Q (Value n)) ns -> Forall (fun n => Q (Value n)) (store c k v ns).
Proof.
  intros Hv. induction 1 as [|n ns Hn Hns IH]; simpl.
  - constructor.
  - destruct (c k (Key n) =? 0); [by constructor|].
    destruct (c k (Key n) <? 0); by constructor.
Qed.

(** Storing a value under [k] and then removing [k] only loses a node. *)
Lemma Forall_Value_remove_store k v ns :
  Forall (fun n => Q (Value n)) ns ->
  Forall (fun n => Q (Value n)) (remove c k (store c k v ns)).
Proof.
  induction 1 as [|n ns Hn Hns IH]; simpl; [constructor|].
  destruct (c k (Key n) =? 0) eqn:He; simpl.
  - by rewrite He.
  - destruct (c k (Key n) <? 0) eqn:Hl; simpl; rewrite He, Hl; by constructor.
Qed.
End TreeValues.

(** ** Preservation of the tree invariant *)

Section TreeOk.
Import redblacktree.
Context (c : Comparator) `{!TotalComparator c}.
Implicit Types (t : Tree PriceLevel.t) (level : PriceLevel.t).

Lemma tree_ok_NewWith : tree_ok c (NewWith c).
Proof. split; simpl; [done|done|constructor]. Qed.

Lemma tree_ok_Put t k level :
  PriceLevel.Price level = k -> tree_ok c t -> tree_ok c (Put t k level).
Proof.
  intros Hp [Hc Hs Hk]. split; unfold Put; simpl; rewrite Hc.
  - done.
  - by apply sorted_put.
  - by apply Forall_put.
Qed.

Lemma tree_ok_Store t k level :
  PriceLevel.Price level = k -> tree_ok c t -> tree_ok c (Store t k level).
Proof.
  intros Hp [Hc Hs Hk]. split; unfold Store; simpl; rewrite Hc.
  - done.
  - by apply sorted_store.
  - by apply Forall_store.
Qed.

Lemma tree_ok_Remove t k : tree_ok c t -> tree_ok c (Remove t k).
Proof.
  intros [Hc Hs Hk]. split; unfold Remove; simpl; rewrite Hc.
  - done.
  - by apply sorted_remove.
  - by apply Forall_remove.
Qed.

Lemma tree_ok_Get_price t k level :
  tree_ok c t -> Get t k = Some level -> PriceLevel.Price level = k.
Proof.
  intros [Hc Hs Hk] Hget. unfold Get in Hget. rewrite Hc in Hget.
  apply get_Some_elem in Hget; [|done].
  rewrite Forall_forall in Hk. exact (Hk _ Hget).
Qed.
Lemma Get_Put_eq t k level : tree_ok c t -> Get (Put t k level) k = Some level.
Proof. intros [Hc _ _]. unfold Get, Put. simpl. rewrite Hc. by apply get_put_eq. Qed.

Lemma Get_Put_ne t k k' level : tree_ok c t -> k <> k' -> Get (Put t k level) k' = Get t k'.
Proof. intros [Hc _ _] Hne. unfold Get, Put. simpl. rewrite Hc. by apply get_put_ne. Qed.

Lemma Get_Store_eq t k level old :
  tree_ok c t -> Get t k = Some old -> Get (Store t k level) k = Some level.
Proof.
  intros [Hc _ _]. unfold Get, Store. simpl. rewrite Hc. intros Hget.
  by rewrite get_store, Hget.
Qed.

Lemma Get_Store_ne t k k' level : tree_ok c t -> k <> k' -> Get (Store t k level) k' = Get t k'.
Proof. intros [Hc _ _] Hne. unfold Get, Store. simpl. rewrite Hc. by apply get_store_ne. Qed.

Lemma Get_Remove_eq t k : tree_ok c t -> Get (Remove t k) k = None.
Proof. intros [Hc Hs _]. unfold Get, Remove. simpl. rewrite Hc. by apply get_remove_eq. Qed.

Lemma Get_Remove_ne t k k' : tree_ok c t -> k <> k' -> Get (Remove t k) k' = Get t k'.
Proof. intros [Hc Hs _] Hne. unfold Get, Remove. simpl. rewrite Hc. by apply get_remove_ne. Qed.
End TreeOk.

(** ** Field-by-field effect of the mutators *)

Lemma getTree_setTree (ob : OrderBook) (side : OrderSide) t :
  getTree (setTree ob side t) side = t.
Proof. unfold getTree, setTree. by destruct (String.eqb side Buy). Qed.

Lemma OrderMap_setTree (ob : OrderBook) (side : OrderSide) t :
  OrderMap (setTree ob side t) = OrderMap ob.
Proof. unfold setTree. by destruct (String.eqb side Buy). Qed.

Lemma sequence_setTree (ob : OrderBook) (side : OrderSide) t :
  sequence (setTree ob side t) = sequence ob.
Proof. unfold setTree. by destruct (String.eqb side Buy). Qed.

Lemma sequence_AddOrder (ob : OrderBook) (order : Order.t) :
  sequence (AddOrder ob order) = wrap_int64 (sequence ob + 1).
Proof. unfold AddOrder. by rewrite sequence_setTree. Qed.

Lemma OrderMap_AddOrder (ob : OrderBook) (order : Order.t) :
  OrderMap (AddOrder ob order) = <[Order.ID order := stamp ob order]> (OrderMap ob).
Proof. unfold AddOrder. by rewrite OrderMap_setTree. Qed.

Lemma sequence_RemoveOrder (ob : OrderBook) (orderID : string) :
  sequence (fst (RemoveOrder ob orderID)) = sequence ob.
Proof.
  unfold RemoveOrder. destruct (OrderMap ob !! orderID) as [order|]; [|done].
  destruct (redblacktree.Get _ _); simpl; [|done].
  by rewrite sequence_setTree.
Qed.

Lemma OrderMap_RemoveOrder (ob : OrderBook) (orderID : string) :
  OrderMap (fst (RemoveOrder ob orderID)) = delete orderID (OrderMap ob).
Proof.
  unfold RemoveOrder. destruct (OrderMap ob !! orderID) as [order|] eqn:Hm.
  - destruct (redblacktree.Get _ _); simpl; [|done].
    by rewrite OrderMap_setTree.
  - simpl. symmetry. by apply delete_id.
Qed.

Lemma result_RemoveOrder (ob : OrderBook) (orderID : string) :
  snd (RemoveOrder ob orderID) = OrderMap ob !! orderID.
Proof.
  unfold RemoveOrder. destruct (OrderMap ob !! orderID) as [order|]; [|done].
  by destruct (redblacktree.Get _ _).
Qed.

(** A property of both trees survives [setTree] when the new tree has it. *)
Lemma both_trees_setTree (P : redblacktree.Comparator -> redblacktree.Tree PriceLevel.t -> Prop)
    (ob : OrderBook) (side : OrderSide) t :
  P buyComparator (BuyTree ob) -> P sellComparator (SellTree ob) ->
  (forall c, TotalComparator c -> P c (getTree ob side) -> P c t) ->
  P buyComparator (BuyTree (setTree ob side t)) /\
  P sellComparator (SellTree (setTree ob side t)).
Proof.
  intros Hb Hs Ht. unfold setTree, getTree in *.
  destruct (String.eqb side Buy); simpl; split; auto; apply Ht; auto; apply _.
Qed.

Lemma getTree_setTree_other (ob : OrderBook) (side side' : OrderSide) t :
  String.eqb side' Buy <> String.eqb side Buy ->
  getTree (setTree ob side t) side' = getTree ob side'.
Proof.
  unfold getTree, setTree.
  by destruct (String.eqb side Buy), (String.eqb side' Buy).
Qed.

(** The tree that [getTree] selects is well formed for one of the two comparators. *)
Lemma book_ok_getTree (ob : OrderBook) (side : OrderSide) :
  book_ok ob -> exists c, TotalComparator c /\ tree_ok c (getTree ob side).
Proof.
  intros [Hb Hs]. unfold getTree. destruct (String.eqb side Buy).
  - exists buyComparator. split; [apply _|done].
  - exists sellComparator. split; [apply _|done].
Qed.

(** ** Reachable books are well formed *)

Lemma book_ok_NewOrderBook (symbol : string) : book_ok (NewOrderBook symbol).
Proof. split; apply tree_ok_NewWith. Qed.

Lemma book_ok_AddOrder (ob : OrderBook) (order : Order.t) :
  book_ok ob -> book_ok (AddOrder ob order).
Proof.
  intros [Hb Hs]. unfold AddOrder.
  apply (both_trees_setTree tree_ok); simpl; [done|done|].
  intros c Hc Hok.
  destruct (redblacktree.Get _ _) as [level|] eqn:Hget.
  - apply tree_ok_Store; [done| |done]. simpl.
    by eapply tree_ok_Get_price.
  - by apply tree_ok_Put.
Qed.

Lemma book_ok_RemoveOrder (ob : OrderBook) (orderID : string) :
  book_ok ob -> book_ok (fst (RemoveOrder ob orderID)).
Proof.
  intros [Hb Hs]. unfold RemoveOrder.
  destruct (OrderMap ob !! orderID) as [order|]; [|by split].
  destruct (redblacktree.Get _ _) as [level|] eqn:Hget; [|by split].
  cbn [fst].
  apply (both_trees_setTree tree_ok); simpl; [done|done|].
  intros c Hc Hok.
  assert (tree_ok c (redblacktree.Store
            (getTree (mkOrderBook (Symbol ob) (BuyTree ob) (SellTree ob)
                        (delete orderID (OrderMap ob)) (sequence ob))
               (Order.Side order)) (Order.Price order)
            match removeLoop orderID [] (PriceLevel.Orders level) with
            | Some orders =>
                PriceLevel.mk (PriceLevel.Price level) orders
                  (PriceLevel.Volume level - (Order.Quantity order - Order.FilledQty order))
            | None => level
            end)) as Hstore.
  { apply tree_ok_Store; [done| |done].
    pose proof (tree_ok_Get_price c _ _ _ Hok Hget) as Hp.
    by destruct (removeLoop _ _ _). }
  destruct (_ =? _)%nat; [by apply tree_ok_Remove|done].
Qed.

Lemma Reachable_book_ok (ob : OrderBook) : Reachable ob -> book_ok ob.
Proof.
  induction 1.
  - apply book_ok_NewOrderBook.
  - by apply book_ok_AddOrder.
  - by apply book_ok_RemoveOrder.
Qed.

Lemma Reachable_run (ops : list Op) (ob : OrderBook) :
  Reachable ob -> Reachable (run ops ob).
Proof.
  revert ob. induction ops as [|op ops IH]; intros ob Hr; simpl; [done|].
  apply IH. destruct op; simpl; by constructor.
Qed.

Lemma buyComparator_le (a b : Z) : buyComparator a b <= 0 <-> b <= a.
Proof.
  unfold buyComparator.
  destruct (Z.gtb_spec a b); [lia|]. destruct (Z.ltb_spec a b); lia.
Qed.

Lemma sellComparator_le (a b : Z) : sellComparator a b <= 0 <-> a <= b.
Proof.
  unfold sellComparator.
  destruct (Z.ltb_spec a b); [lia|]. destruct (Z.gtb_spec a b); lia.
Qed.

(** The levels of a well-formed tree come in strict comparator order of
    their prices. *)
Lemma levelsOf_sorted (c : redblacktree.Comparator) (t : redblacktree.Tree PriceLevel.t) :
  tree_ok c t ->
  StronglySorted (fun a b => c (PriceLevel.Price a) (PriceLevel.Price b) < 0) (levelsOf t).
Proof.
  intros [_ Hs Hk]. unfold levelsOf.
  induction (redblacktree.nodes t) as [|n ns IH]; simpl; [constructor|].
  destruct Hs as [Hall Hs]. apply Forall_cons in Hk as [Hn Hk].
  constructor; [by apply IH|].
  rewrite Forall_fmap. rewrite Forall_forall in Hall, Hk.
  apply Forall_forall. intros m Hm. simpl.
  rewrite Hn, (Hk m Hm). by apply Hall.
Qed.

(** The first node of a well-formed tree carries the extreme key. *)
Lemma Left_least (c : redblacktree.Comparator) `{!TotalComparator c}
    (t : redblacktree.Tree PriceLevel.t) n k :
  tree_ok c t -> redblacktree.Left t = Some n -> k ∈ redblacktree.Keys t ->
  c (redblacktree.Key n) k <= 0.
Proof.
  intros [_ Hs _]. unfold redblacktree.Left, redblacktree.Keys.
  destruct (redblacktree.nodes t) as [|n' ns]; simpl; [done|].
  intros [= ->] Hin.
  change (redblacktree.Key n :: map redblacktree.Key ns)
    with (redblacktree.Key <$> (n :: ns)) in Hin.
  apply list_elem_of_fmap in Hin as [m [-> Hm]].
  by eapply sorted_head_least.
Qed.

(** Well-formedness of a concrete book, by evaluation. *)
Ltac book_ok_by_eval :=
  split; (split; [reflexivity | vm_compute; repeat split; repeat constructor
                 | vm_compute; repeat constructor]).

(** ** Removing an identifier that is not indexed *)

(** C5.  Whenever [orderID] is absent from the order index,
    [RemoveOrder] returns no order and the book it leaves is the book it
    was given.  Hence, once a [RemoveOrder] of an identifier has
    returned an order, a second [RemoveOrder] of the same identifier
    returns none and changes nothing. *)
Theorem RemoveOrder_unknown (ob : OrderBook) (orderID : string) :
  (OrderMap ob !! orderID = None -> RemoveOrder ob orderID = (ob, None)) /\
  (forall order,
      snd (RemoveOrder ob orderID) = Some order ->
      RemoveOrder (fst (RemoveOrder ob orderID)) orderID
      = (fst (RemoveOrder ob orderID), None)).
Proof.
  assert (forall b, OrderMap b !! orderID = None -> RemoveOrder b orderID = (b, None))
    as Hnone.
  { intros b Hb. unfold RemoveOrder. by rewrite Hb. }
  split; [apply Hnone|].
  intros order _. apply Hnone.
  rewrite OrderMap_RemoveOrder. apply lookup_delete_eq.
Qed.

Lemma RemoveOrder_unknown_witness :
  RemoveOrder bookABC "Q" = (bookABC, None) /\
  RemoveOrder (fst (RemoveOrder bookABC "B")) "B" = (fst (RemoveOrder bookABC "B"), None).
Proof.
  split.
  - apply (proj1 (RemoveOrder_unknown bookABC "Q")). vm_compute. reflexivity.
  - apply (proj2 (RemoveOrder_unknown bookABC "B") (stamp (AddOrder emptyBook orderA) orderB)).
    vm_compute. reflexivity.
Defined.

(** ** Stale index entries *)

(** C10.  When [orderID] is indexed but its side's tree has no level at
    the order's price, [RemoveOrder] returns the indexed order and drops
    the index entry; both trees, with all their levels and volumes, are
    the same objects as before, and [Size] is one less. *)
Theorem RemoveOrder_stale (ob : OrderBook) (orderID : string) (order : Order.t) :
  stale ob orderID order ->
  snd (RemoveOrder ob orderID) = Some order /\
  OrderMap (fst (RemoveOrder ob orderID)) = delete orderID (OrderMap ob) /\
  GetOrder (fst (RemoveOrder ob orderID)) orderID = None /\
  BuyTree (fst (RemoveOrder ob orderID)) = BuyTree ob /\
  SellTree (fst (RemoveOrder ob orderID)) = SellTree ob /\
  Size (fst (RemoveOrder ob orderID)) = Size ob - 1.
Proof.
  intros [Hidx Hlevel].
  assert (RemoveOrder ob orderID
          = (mkOrderBook (Symbol ob) (BuyTree ob) (SellTree ob)
               (delete orderID (OrderMap ob)) (sequence ob), Some order)) as ->.
  { unfold RemoveOrder. rewrite Hidx.
    change (getTree (mkOrderBook _ _ _ _ _) ?s) with (getTree ob s).
    by rewrite Hlevel. }
  unfold GetOrder, Size. simpl. repeat split.
  - apply lookup_delete_eq.
  - rewrite map_size_delete_Some by eauto.
    assert (size (OrderMap ob) <> 0%nat).
    { intros Hz. apply map_size_empty_inv in Hz. rewrite Hz in Hidx.
      by rewrite lookup_empty in Hidx. }
    lia.
Qed.

Lemma RemoveOrder_stale_witness :
  snd (RemoveOrder bookStale "Z") = Some (limitOrder "Z" Buy 100 1 0) /\
  OrderMap (fst (RemoveOrder bookStale "Z")) = delete "Z"%string (OrderMap bookStale) /\
  GetOrder (fst (RemoveOrder bookStale "Z")) "Z" = None /\
  BuyTree (fst (RemoveOrder bookStale "Z")) = BuyTree bookStale /\
  SellTree (fst (RemoveOrder bookStale "Z")) = SellTree bookStale /\
  Size (fst (RemoveOrder bookStale "Z")) = Size bookStale - 1.
Proof.
  apply (RemoveOrder_stale bookStale "Z" (limitOrder "Z" Buy 100 1 0)).
  split; vm_compute; reflexivity.
Defined.

(** ** Spread *)

(** C9.  When both trees are non-empty, both best prices are reported
    as present and [GetSpread] is the best ask minus the best bid; when
    either tree is empty there is no spread and [GetSpread] is 0. *)
Theorem GetSpread_spec (ob : OrderBook) :
  (redblacktree.Size (BuyTree ob) <> 0 ->
   redblacktree.Size (SellTree ob) <> 0 ->
   snd (GetBestBid ob) = true /\ snd (GetBestAsk ob) = true /\
   GetSpread ob = fst (GetBestAsk ob) - fst (GetBestBid ob)) /\
  (redblacktree.Size (BuyTree ob) = 0 \/ redblacktree.Size (SellTree ob) = 0 ->
   GetSpread ob = 0).
Proof.
  unfold GetSpread, GetBestBid, GetBestAsk, redblacktree.Size, redblacktree.Left.
  destruct (redblacktree.nodes (BuyTree ob)) as [|nb bs];
    destruct (redblacktree.nodes (SellTree ob)) as [|ns ss]; simpl;
    split; intros; try done; try lia.
Qed.

Lemma GetSpread_spec_witness :
  (snd (GetBestBid bookTwoSided) = true /\ snd (GetBestAsk bookTwoSided) = true /\
   GetSpread bookTwoSided = fst (GetBestAsk bookTwoSided) - fst (GetBestBid bookTwoSided)) /\
  GetSpread bookABC = 0.
Proof.
  split.
  - apply (proj1 (GetSpread_spec bookTwoSided)); vm_compute; discriminate.
  - apply (proj2 (GetSpread_spec bookABC)). right. vm_compute. reflexivity.
Defined.

(** ** Best prices *)

(** C7.  On a well-formed book, [GetBestBid] answers [(0, false)] when
    the buy tree has no key, and otherwise [(p, true)] where [p] is a
    key of the buy tree and no key of the buy tree is above it;
    [GetBestAsk] answers [(0, false)] when the sell tree has no key, and
    otherwise [(p, true)] where [p] is a key of the sell tree and no key
    of the sell tree is below it. *)
Theorem best_prices (ob : OrderBook) :
  book_ok ob ->
  (redblacktree.Keys (BuyTree ob) = [] -> GetBestBid ob = (0, false)) /\
  (redblacktree.Keys (BuyTree ob) <> [] ->
   exists p, GetBestBid ob = (p, true) /\
             p ∈ redblacktree.Keys (BuyTree ob) /\
             forall k, k ∈ redblacktree.Keys (BuyTree ob) -> k <= p) /\
  (redblacktree.Keys (SellTree ob) = [] -> GetBestAsk ob = (0, false)) /\
  (redblacktree.Keys (SellTree ob) <> [] ->
   exists p, GetBestAsk ob = (p, true) /\
             p ∈ redblacktree.Keys (SellTree ob) /\
             forall k, k ∈ redblacktree.Keys (SellTree ob) -> p <= k).
Proof.
  intros [Hb Hs]. repeat split.
  - unfold GetBestBid, redblacktree.Keys, redblacktree.Size.
    by destruct (redblacktree.nodes (BuyTree ob)).
  - intros Hne.
    pose proof (fun n k => Left_least buyComparator (BuyTree ob) n k Hb) as Hleast.
    unfold GetBestBid, redblacktree.Size, redblacktree.Left, redblacktree.Keys in *.
    destruct (redblacktree.nodes (BuyTree ob)) as [|n ns]; [done|].
    exists (redblacktree.Key n). simpl. repeat split.
    + apply list_elem_of_here.
    + intros k Hk. apply buyComparator_le. by apply Hleast.
  - unfold GetBestAsk, redblacktree.Keys, redblacktree.Size.
    by destruct (redblacktree.nodes (SellTree ob)).
  - intros Hne.
    pose proof (fun n k => Left_least sellComparator (SellTree ob) n k Hs) as Hleast.
    unfold GetBestAsk, redblacktree.Size, redblacktree.Left, redblacktree.Keys in *.
    destruct (redblacktree.nodes (SellTree ob)) as [|n ns]; [done|].
    exists (redblacktree.Key n). simpl. repeat split.
    + apply list_elem_of_here.
    + intros k Hk. apply sellComparator_le. by apply Hleast.
Qed.

Lemma best_prices_witness :
  (exists p, GetBestBid bookTwoSided = (p, true) /\
             p ∈ redblacktree.Keys (BuyTree bookTwoSided) /\
             forall k, k ∈ redblacktree.Keys (BuyTree bookTwoSided) -> k <= p) /\
  GetBestAsk bookABC = (0, false).
Proof.
  split.
  - apply (best_prices bookTwoSided).
    + book_ok_by_eval.
    + vm_compute. discriminate.
  - apply (best_prices bookABC).
    + book_ok_by_eval.
    + vm_compute. reflexivity.
Defined.

(** ** Depth *)

(** The loop of [GetDepth] copies the first [levels - count] levels. *)
Lemma depthLoop_take (it : list (redblacktree.Node PriceLevel.t)) (count levels : Z)
    (out : list PriceLevel.t) :
  depthLoop it count levels out
  = out ++ take (Z.to_nat (levels - count)) (map redblacktree.Value it).
Proof.
  revert count out. induction it as [|node it IH]; intros count out; simpl.
  - by rewrite take_nil, app_nil_r.
  - destruct (Z.ltb_spec count levels) as [Hlt|Hge].
    + rewrite IH, <- app_assoc. simpl.
      replace (Z.to_nat (levels - count)) with (S (Z.to_nat (levels - (count + 1)))) by lia.
      reflexivity.
    + replace (Z.to_nat (levels - count)) with 0%nat by lia.
      by rewrite app_nil_r.
Qed.


Lemma StronglySorted_weaken {A} (R R' : A -> A -> Prop) (l : list A) :
  (forall a b, R a b -> R' a b) -> StronglySorted R l -> StronglySorted R' l.
Proof.
  intros HR. induction 1 as [|a l Hl IH Hall]; constructor; [done|].
  eapply Forall_impl; [exact Hall|]. auto.
Qed.




(** ** No empty level *)

Lemma levels_nonempty_AddOrder (ob : OrderBook) (order : Order.t) :
  levels_nonempty (BuyTree ob) /\ levels_nonempty (SellTree ob) ->
  levels_nonempty (BuyTree (AddOrder ob order)) /\
  levels_nonempty (SellTree (AddOrder ob order)).
Proof.
  intros [Hb Hs]. unfold AddOrder.
  apply (both_trees_setTree (fun _ => levels_nonempty)); simpl; [done|done|].
  intros c Hc Hne. unfold levels_nonempty in *.
  destruct (redblacktree.Get _ _) as [level|]; simpl.
  - apply (Forall_Value_store _ (fun level => PriceLevel.Orders level <> [])); [|done]. simpl. by destruct (PriceLevel.Orders level).
  - by apply (Forall_Value_put _ (fun level => PriceLevel.Orders level <> [])).
Qed.

Lemma levels_nonempty_RemoveOrder (ob : OrderBook) (orderID : string) :
  levels_nonempty (BuyTree ob) /\ levels_nonempty (SellTree ob) ->
  levels_nonempty (BuyTree (fst (RemoveOrder ob orderID))) /\
  levels_nonempty (SellTree (fst (RemoveOrder ob orderID))).
Proof.
  intros [Hb Hs]. unfold RemoveOrder.
  destruct (OrderMap ob !! orderID) as [order|]; [|done].
  destruct (redblacktree.Get _ _) as [level|]; [|done].
  cbn [fst].
  apply (both_trees_setTree (fun _ => levels_nonempty)); simpl; [done|done|].
  intros c Hc Hne. unfold levels_nonempty in *.
  match goal with
  | |- context [Nat.eqb (length (PriceLevel.Orders ?l)) 0] =>
      destruct (PriceLevel.Orders l) as [|o os] eqn:Horders
  end; simpl.
  - by apply (Forall_Value_remove_store _ (fun level => PriceLevel.Orders level <> [])).
  - apply (Forall_Value_store _ (fun level => PriceLevel.Orders level <> [])); [|done]. by rewrite Horders.
Qed.

(** C6.  In every book reached from [NewOrderBook] by [AddOrder] and
    [RemoveOrder] calls, each level present in the buy tree or in the
    sell tree holds at least one order. *)
Theorem no_empty_level (ob : OrderBook) (level : PriceLevel.t) :
  Reachable ob ->
  level ∈ levelsOf (BuyTree ob) \/ level ∈ levelsOf (SellTree ob) ->
  PriceLevel.Orders level <> [].
Proof.
  intros Hr.
  assert (levels_nonempty (BuyTree ob) /\ levels_nonempty (SellTree ob)) as [Hb Hs].
  { induction Hr.
    - split; constructor.
    - by apply levels_nonempty_AddOrder.
    - by apply levels_nonempty_RemoveOrder. }
  unfold levels_nonempty, levelsOf in *. rewrite Forall_forall in Hb, Hs.
  intros [Hin|Hin];
    change (map redblacktree.Value ?l) with (redblacktree.Value <$> l) in Hin;
    apply list_elem_of_fmap in Hin as [n [-> Hn]]; auto.
Qed.

Lemma no_empty_level_witness :
  Forall (fun level => PriceLevel.Orders level <> []) (levelsOf (BuyTree bookTwoSided)).
Proof.
  apply Forall_forall. intros level Hin.
  apply (no_empty_level bookTwoSided level).
  - exact (Reachable_add _ _ (Reachable_add _ _ (Reachable_add _ _
             (Reachable_add _ _ (Reachable_add _ _ (Reachable_new _)))))).
  - left. exact Hin.
Defined.

(** ** Removing a live order *)

Lemma removeLoop_first (orderID : string) (order : Order.t)
    (seen before after : list Order.t) :
  Forall (fun o => Order.ID o <> orderID) before ->
  Order.ID order = orderID ->
  removeLoop orderID seen (before ++ order :: after) = Some (seen ++ before ++ after).
Proof.
  intros Hbefore Hid. revert seen.
  induction Hbefore as [|o before Ho _ IH]; intros seen; simpl.
  - by rewrite (proj2 (String.eqb_eq _ _) Hid).
  - rewrite (proj2 (String.eqb_neq _ _) Ho), IH, <- app_assoc. reflexivity.
Qed.

(** C4 as stated fails when an identifier was reused.  In
    [bookReused] the identifier of B is indexed and its order, the
    newcomer, rests in the level at 100; [RemoveOrder] returns the
    newcomer, but the order it takes out of the level is the old B, and
    the newcomer stays in the level. *)
Lemma RemoveOrder_reused_identifier_example :
  GetOrder bookReused "B" = Some stampedB2 /\
  redblacktree.Get (getTree bookReused (Order.Side stampedB2)) (Order.Price stampedB2)
  = Some (PriceLevel.mk 100 [stampedA; stampedB; stampedC; stampedB2] 13) /\
  snd (RemoveOrder bookReused "B") = Some stampedB2 /\
  redblacktree.Get (getTree (fst (RemoveOrder bookReused "B")) (Order.Side stampedB2))
    (Order.Price stampedB2)
  = Some (PriceLevel.mk 100 [stampedA; stampedC; stampedB2] 6).
Proof. repeat split; vm_compute; reflexivity. Qed.

(** C4, as the code has it.  On a well-formed book in which [orderID]
    is live (indexed, its order resting in the level at its price on
    its side) and no order ahead of it in that level carries the same
    identifier, [RemoveOrder] returns the order,
    deletes the index entry, and takes the order out of its level's
    sequence while lowering the level's [Volume] by the order's
    [Quantity - FilledQty].  The level stays in its tree exactly when
    orders remain in it; no other level of that tree and nothing in the
    other tree changes. *)
Theorem RemoveOrder_live (ob : OrderBook) (orderID : string) (order : Order.t)
    (level : PriceLevel.t) (before after : list Order.t) :
  book_ok ob ->
  live ob orderID order level before after ->
  snd (RemoveOrder ob orderID) = Some order /\
  OrderMap (fst (RemoveOrder ob orderID)) = delete orderID (OrderMap ob) /\
  GetOrder (fst (RemoveOrder ob orderID)) orderID = None /\
  (before ++ after <> [] ->
   redblacktree.Get (getTree (fst (RemoveOrder ob orderID)) (Order.Side order))
     (Order.Price order)
   = Some (PriceLevel.mk (PriceLevel.Price level) (before ++ after)
             (PriceLevel.Volume level - (Order.Quantity order - Order.FilledQty order)))) /\
  (redblacktree.Get (getTree (fst (RemoveOrder ob orderID)) (Order.Side order))
     (Order.Price order) = None
   <-> before ++ after = []) /\
  (forall k, k <> Order.Price order ->
     redblacktree.Get (getTree (fst (RemoveOrder ob orderID)) (Order.Side order)) k
     = redblacktree.Get (getTree ob (Order.Side order)) k) /\
  (forall side, String.eqb side Buy <> String.eqb (Order.Side order) Buy ->
     getTree (fst (RemoveOrder ob orderID)) side = getTree ob side).
Proof.
  intros Hok (Hidx & Hget & Horders & Hid & Hbefore).
  destruct (book_ok_getTree ob (Order.Side order) Hok) as (c & Hc & Htree).
  split; [by rewrite result_RemoveOrder|].
  split; [apply OrderMap_RemoveOrder|].
  split; [unfold GetOrder; rewrite OrderMap_RemoveOrder; apply lookup_delete_eq|].
  set (level' := PriceLevel.mk (PriceLevel.Price level) (before ++ after)
                   (PriceLevel.Volume level - (Order.Quantity order - Order.FilledQty order))).
  set (stored := redblacktree.Store (getTree ob (Order.Side order)) (Order.Price order) level').
  assert (tree_ok c stored) as Hstored.
  { apply tree_ok_Store; [done| |done]. simpl. by eapply tree_ok_Get_price. }
  assert (fst (RemoveOrder ob orderID)
          = setTree (mkOrderBook (Symbol ob) (BuyTree ob) (SellTree ob)
                       (delete orderID (OrderMap ob)) (sequence ob))
              (Order.Side order)
              (if (length (before ++ after) =? 0)%nat
               then redblacktree.Remove stored (Order.Price order)
               else stored)) as ->.
  { unfold RemoveOrder. rewrite Hidx.
    change (getTree (mkOrderBook _ _ _ _ _) ?s) with (getTree ob s).
    rewrite Hget, Horders, (removeLoop_first orderID order [] before after Hbefore Hid).
    reflexivity. }
  rewrite getTree_setTree.
  assert (redblacktree.Get stored (Order.Price order) = Some level') as Hnew.
  { by eapply Get_Store_eq. }
  repeat split.
  - intros Hne. destruct (before ++ after); [done|]. exact Hnew.
  - destruct (before ++ after); [done|]. simpl. by rewrite Hnew.
  - intros ->. simpl. by eapply Get_Remove_eq.
  - intros k Hk.
    transitivity (redblacktree.Get stored k).
    + destruct (_ =? _)%nat; [|done]. by eapply Get_Remove_ne.
    + by eapply Get_Store_ne.
  - intros side Hside. by rewrite getTree_setTree_other.
Qed.

Lemma RemoveOrder_live_witness :
  snd (RemoveOrder bookABC "B") = Some stampedB /\
  redblacktree.Get (getTree (fst (RemoveOrder bookABC "B")) Buy) 100
  = Some (PriceLevel.mk 100 [stampedA; stampedC] 4).
Proof.
  assert (book_ok bookABC) as Hok by book_ok_by_eval.
  assert (live bookABC "B" stampedB levelABC [stampedA] [stampedC]) as Hlive.
  { repeat split; try (vm_compute; reflexivity).
    repeat constructor. vm_compute. discriminate. }
  destruct (RemoveOrder_live bookABC "B" stampedB levelABC [stampedA] [stampedC] Hok Hlive)
    as (Hres & _ & _ & Hlevel & _).
  split; [exact Hres|]. apply Hlevel. discriminate.
Defined.

(** ** The sequence counter *)

Lemma stamps_run (ops : list Op) (ob : OrderBook) :
  MinInt64 <= sequence ob ->
  sequence ob + Z.of_nat (length ops) <= MaxInt64 ->
  StronglySorted Z.lt (stamps ops ob) /\
  Forall (fun s => sequence ob < s <= sequence (run ops ob)) (stamps ops ob) /\
  sequence (run ops ob) = sequence ob + Z.of_nat (length (stamps ops ob)).
Proof.
  revert ob. induction ops as [|[order|orderID] ops IH]; intros ob Hlo Hhi.
  - simpl. repeat split; [constructor|constructor|lia].
  - assert (wrap_int64 (sequence ob + 1) = sequence ob + 1) as Hw.
    { apply wrap_int64_small. simpl length in Hhi. lia. }
    destruct (IH (AddOrder ob order)) as (Hs & Hall & Hlen).
    { rewrite sequence_AddOrder, Hw. lia. }
    { rewrite sequence_AddOrder, Hw. simpl length in Hhi. lia. }
    rewrite sequence_AddOrder, Hw in Hall, Hlen.
    cbn [stamps]. unfold run. cbn [fold_left step]. fold (run ops (AddOrder ob order)).
    unfold stamp. cbn [Order.SequenceNum Order.setSequenceNum]. rewrite Hw.
    cbn [length]. repeat split.
    + constructor; [done|]. eapply Forall_impl; [exact Hall|]. simpl. lia.
    + constructor; [lia|]. eapply Forall_impl; [exact Hall|]. simpl. lia.
    + lia.
  - destruct (IH (fst (RemoveOrder ob orderID))) as (Hs & Hall & Hlen).
    { rewrite sequence_RemoveOrder. lia. }
    { rewrite sequence_RemoveOrder. simpl length in Hhi. lia. }
    rewrite sequence_RemoveOrder in Hall, Hlen.
    cbn [stamps]. unfold run. cbn [fold_left step].
    fold (run ops (fst (RemoveOrder ob orderID))).
    done.
Qed.

(** C3, as the code has it.  While the counter is below the largest
    [int64], every [AddOrder] raises it by exactly one and stores the
    order stamped with the new value; [RemoveOrder] never touches the
    counter, whether or not it removes an order.  So along every run
    from [NewOrderBook] the sequence numbers handed out are strictly
    increasing - each one is above every earlier one, none is used
    twice - they lie between 1 and the current counter, and the counter
    equals the number of [AddOrder] calls made. *)
Theorem sequence_counter :
  (forall ob order,
      MinInt64 <= sequence ob < MaxInt64 ->
      sequence (AddOrder ob order) = sequence ob + 1 /\
      GetOrder (AddOrder ob order) (Order.ID order) = Some (stamp ob order) /\
      Order.SequenceNum (stamp ob order) = sequence ob + 1) /\
  (forall ob orderID, sequence (fst (RemoveOrder ob orderID)) = sequence ob) /\
  (forall symbol ops,
      Z.of_nat (length ops) <= MaxInt64 ->
      StronglySorted Z.lt (stamps ops (NewOrderBook symbol)) /\
      Forall (fun s => 0 < s <= sequence (run ops (NewOrderBook symbol)))
        (stamps ops (NewOrderBook symbol)) /\
      sequence (run ops (NewOrderBook symbol))
      = Z.of_nat (length (stamps ops (NewOrderBook symbol)))).
Proof.
  split; [|split].
  - intros ob order Hrange.
    assert (wrap_int64 (sequence ob + 1) = sequence ob + 1) as Hw.
    { apply wrap_int64_small. unfold MinInt64, MaxInt64 in *. lia. }
    repeat split.
    + by rewrite sequence_AddOrder.
    + unfold GetOrder. rewrite OrderMap_AddOrder. apply lookup_insert_eq.
    + unfold stamp. simpl. exact Hw.
  - apply sequence_RemoveOrder.
  - intros symbol ops Hlen.
    destruct (stamps_run ops (NewOrderBook symbol)) as (Hs & Hall & Hseq).
    { unfold MinInt64. simpl. lia. }
    { simpl. lia. }
    change (sequence (NewOrderBook symbol)) with 0 in Hall, Hseq.
    rewrite Z.add_0_l in Hseq. done.
Qed.

Lemma sequence_counter_witness :
  sequence (AddOrder bookABC orderD) = sequence bookABC + 1 /\
  StronglySorted Z.lt
    (stamps [OpAdd orderA; OpRemove "A"%string; OpAdd orderB; OpAdd orderC] emptyBook).
Proof.
  destruct sequence_counter as (Hadd & _ & Hrun). split.
  - apply (Hadd bookABC orderD).
    split; [vm_compute; discriminate | vm_compute; reflexivity].
  - apply (Hrun "BTC-USD"%string
             [OpAdd orderA; OpRemove "A"%string; OpAdd orderB; OpAdd orderC]).
    vm_compute. discriminate.
Defined.

(** C3 as stated fails on cancels: B is live in [bookABC],
    [RemoveOrder] returns it, and the counter is 3 before and after. *)
Lemma RemoveOrder_keeps_sequence_example :
  snd (RemoveOrder bookABC "B") = Some stampedB /\
  sequence bookABC = 3 /\
  sequence (fst (RemoveOrder bookABC "B")) = 3 /\
  ~ sequence bookABC < sequence (fst (RemoveOrder bookABC "B")).
Proof.
  repeat split; try (vm_compute; reflexivity).
  vm_compute. discriminate.
Qed.

(** ** Adding under an identifier that is already indexed *)

(** C2 as stated fails: B is indexed in [bookABC], and adding another
    order under that identifier takes sequence number 4, replaces the
    index entry and changes the book. *)
Lemma AddOrder_duplicate_example :
  GetOrder bookABC (Order.ID orderB2) = Some stampedB /\
  sequence bookABC = 3 /\
  sequence (AddOrder bookABC orderB2) = 4 /\
  GetOrder (AddOrder bookABC orderB2) "B" = Some stampedB2 /\
  AddOrder bookABC orderB2 <> bookABC.
Proof.
  repeat split; try (vm_compute; reflexivity).
  intros Heq. apply (f_equal sequence) in Heq. vm_compute in Heq. discriminate.
Qed.

(** C2, as the code has it.  [AddOrder] has no duplicate check and no
    error result.  On a well-formed book whose counter is below the
    largest [int64], adding an order whose identifier is already indexed
    consumes the next sequence number, makes the index entry of that
    identifier point to the new order (so [Size] is unchanged), and
    appends the new order at the tail of the level at its price on its
    side. *)
Theorem AddOrder_duplicate (ob : OrderBook) (order : Order.t) :
  book_ok ob ->
  is_Some (OrderMap ob !! Order.ID order) ->
  MinInt64 <= sequence ob < MaxInt64 ->
  sequence (AddOrder ob order) = sequence ob + 1 /\
  GetOrder (AddOrder ob order) (Order.ID order) = Some (stamp ob order) /\
  Size (AddOrder ob order) = Size ob /\
  exists level,
    redblacktree.Get (getTree (AddOrder ob order) (Order.Side order)) (Order.Price order)
    = Some level /\
    PriceLevel.Orders level
    = match redblacktree.Get (getTree ob (Order.Side order)) (Order.Price order) with
      | Some old => PriceLevel.Orders old
      | None => []
      end ++ [stamp ob order].
Proof.
  intros Hok Hdup Hrange.
  destruct (book_ok_getTree ob (Order.Side order) Hok) as (c & Hc & Htree).
  repeat split.
  - rewrite sequence_AddOrder. apply wrap_int64_small.
    unfold MinInt64, MaxInt64 in *. lia.
  - unfold GetOrder. rewrite OrderMap_AddOrder. apply lookup_insert_eq.
  - unfold Size. rewrite OrderMap_AddOrder.
    destruct Hdup as [old Hold]. by erewrite map_size_insert_Some.
  - unfold AddOrder. rewrite getTree_setTree.
    change (getTree (mkOrderBook _ _ _ _ _) ?s) with (getTree ob s).
    cbn [Order.Side Order.Price Order.setSequenceNum].
    destruct (redblacktree.Get (getTree ob (Order.Side order)) (Order.Price order))
      as [old|] eqn:Hget.
    + eexists. split; [by eapply Get_Store_eq|]. reflexivity.
    + eexists. split; [by eapply Get_Put_eq|]. reflexivity.
Qed.

Lemma AddOrder_duplicate_witness :
  sequence (AddOrder bookABC orderB2) = sequence bookABC + 1 /\
  GetOrder (AddOrder bookABC orderB2) (Order.ID orderB2) = Some (stamp bookABC orderB2) /\
  Size (AddOrder bookABC orderB2) = Size bookABC.
Proof.
  destruct (AddOrder_duplicate bookABC orderB2) as (Hseq & Hidx & Hsize & _).
  - book_ok_by_eval.
  - exists stampedB. vm_compute. reflexivity.
  - split; [vm_compute; discriminate | vm_compute; reflexivity].
  - done.
Defined.

(** At the largest [int64] the increment of [AddOrder] wraps around to
    the smallest one, which is why the counter properties above are
    stated below that value. *)
Remark AddOrder_sequence_wraps (ob : OrderBook) (order : Order.t) :
  sequence ob = MaxInt64 -> sequence (AddOrder ob order) = MinInt64.
Proof. intros Hmax. rewrite sequence_AddOrder, Hmax. reflexivity. Qed.

(** ** Books built within the precondition of insertion

    When every added order is unfilled and carries an identifier that
    is not indexed, the book keeps its volumes equal to the residual
    sums and every indexed identifier is live. *)

Lemma sumResiduals_app (l1 l2 : list Order.t) :
  sumResiduals (l1 ++ l2) = sumResiduals l1 + sumResiduals l2.
Proof. induction l1 as [|o l1 IH]; simpl; [done|]. rewrite IH. lia. Qed.

#[global] Instance cmpOf_total (buy : bool) : TotalComparator (cmpOf buy).
Proof. destruct buy; apply _. Qed.

Lemma getTree_treeOf (ob : OrderBook) (side : OrderSide) :
  getTree ob side = treeOf (String.eqb side Buy) ob.
Proof. reflexivity. Qed.

Lemma getTree_order (ob : OrderBook) (order : Order.t) :
  getTree ob (Order.Side order) = treeOf (onBuySide order) ob.
Proof. reflexivity. Qed.

Lemma book_ok_treeOf (ob : OrderBook) (buy : bool) :
  book_ok ob -> tree_ok (cmpOf buy) (treeOf buy ob).
Proof. intros [Hb Hs]. by destruct buy. Qed.

Lemma treeOf_AddOrder (buy : bool) (ob : OrderBook) (order : Order.t) :
  treeOf buy (AddOrder ob order)
  = if Bool.eqb buy (onBuySide order)
    then match redblacktree.Get (treeOf buy ob) (Order.Price order) with
         | Some level =>
             redblacktree.Store (treeOf buy ob) (Order.Price order)
               (appended level (stamp ob order))
         | None =>
             redblacktree.Put (treeOf buy ob) (Order.Price order)
               (appended (PriceLevel.mk (Order.Price order) [] 0) (stamp ob order))
         end
    else treeOf buy ob.
Proof.
  unfold AddOrder, setTree, getTree, treeOf, onBuySide. simpl.
  destruct (String.eqb (Order.Side order) Buy), buy; reflexivity.
Qed.

Lemma treeOf_RemoveOrder (buy : bool) (ob : OrderBook) (orderID : string) :
  treeOf buy (fst (RemoveOrder ob orderID))
  = match OrderMap ob !! orderID with
    | None => treeOf buy ob
    | Some order =>
        if Bool.eqb buy (onBuySide order)
        then match redblacktree.Get (treeOf buy ob) (Order.Price order) with
             | None => treeOf buy ob
             | Some level =>
                 let stored :=
                   redblacktree.Store (treeOf buy ob) (Order.Price order)
                     (afterLoop level orderID order) in
                 if (length (PriceLevel.Orders (afterLoop level orderID order)) =? 0)%nat
                 then redblacktree.Remove stored (Order.Price order)
                 else stored
             end
        else treeOf buy ob
    end.
Proof.
  unfold RemoveOrder. destruct (OrderMap ob !! orderID) as [order|]; [|done].
  unfold setTree, getTree, treeOf, onBuySide, afterLoop. simpl.
  destruct (String.eqb (Order.Side order) Buy), buy; simpl;
    destruct (redblacktree.Get _ _); reflexivity.
Qed.

Section LevelInv.
Import redblacktree.
Context (om : gmap string Order.t) (buy : bool).
Implicit Types (n : Node PriceLevel.t) (level : PriceLevel.t) (order : Order.t).

Lemma level_inv_insert_fresh n orderID order :
  om !! orderID = None -> level_inv om buy n -> level_inv (<[orderID := order]> om) buy n.
Proof.
  intros Hfresh [Hv Hn Hi]. split; [done|done|].
  eapply Forall_impl; [exact Hi|]. simpl. intros o (Ho & Hp & Hs).
  split; [|done]. rewrite lookup_insert_ne; [done|]. congruence.
Qed.

Lemma level_inv_delete n orderID :
  Forall (fun o => Order.ID o <> orderID) (PriceLevel.Orders (Value n)) ->
  level_inv om buy n -> level_inv (delete orderID om) buy n.
Proof.
  intros Hother [Hv Hn Hi]. split; [done|done|].
  rewrite Forall_forall in Hother, Hi. apply Forall_forall. intros o Ho.
  destruct (Hi o Ho) as (Hidx & Hp & Hs). split; [|done].
  rewrite lookup_delete_ne; [done|]. specialize (Hother o Ho). congruence.
Qed.

Lemma level_inv_empty k : level_inv om buy (mkNode k (PriceLevel.mk k [] 0)).
Proof. split; simpl; [done|constructor|constructor]. Qed.

Lemma level_inv_appended k level order s :
  om !! Order.ID order = None ->
  Order.FilledQty order = 0 ->
  Order.Price order = k ->
  onBuySide order = buy ->
  level_inv om buy (mkNode k level) ->
  level_inv (<[Order.ID order := Order.setSequenceNum order s]> om) buy
    (mkNode k (appended level (Order.setSequenceNum order s))).
Proof.
  intros Hfresh Hfilled Hprice Hside [Hv Hn Hi]. simpl in *.
  rewrite Forall_forall in Hi. split; simpl.
  - rewrite sumResiduals_app, Hv. simpl. unfold Order.residual. simpl. lia.
  - rewrite fmap_app. apply NoDup_app. split; [done|]. split.
    + intros x Hx Hx'. apply list_elem_of_singleton in Hx'. simpl in Hx'. subst x.
      apply list_elem_of_fmap in Hx as [o [Hid Ho]].
      destruct (Hi o Ho) as (Hidx & _). rewrite <- Hid in Hidx. congruence.
    + apply NoDup_singleton.
  - apply Forall_app. split.
    + apply Forall_forall. intros o Ho. destruct (Hi o Ho) as (Hidx & Hp & Hs).
      split; [|done]. rewrite lookup_insert_ne; [done|]. congruence.
    + constructor; [|constructor]. simpl. split; [apply lookup_insert_eq|done].
Qed.

Lemma level_inv_removed k level order before after :
  PriceLevel.Orders level = before ++ order :: after ->
  level_inv om buy (mkNode k level) ->
  level_inv (delete (Order.ID order) om) buy
    (mkNode k (PriceLevel.mk (PriceLevel.Price level) (before ++ after)
                 (PriceLevel.Volume level - (Order.Quantity order - Order.FilledQty order)))).
Proof.
  intros Horders [Hv Hn Hi]. simpl in *. rewrite Horders in Hv, Hn, Hi.
  assert (NoDup (Order.ID order :: (Order.ID <$> before ++ after))) as Hnd.
  { rewrite fmap_app, fmap_cons in Hn. rewrite fmap_app.
    eapply NoDup_Permutation_proper; [|exact Hn]. apply Permutation_middle. }
  apply NoDup_cons in Hnd as [Hnotin Hnd].
  split; simpl.
  - rewrite sumResiduals_app in *. simpl in Hv. unfold Order.residual in Hv. lia.
  - done.
  - rewrite Forall_app, Forall_cons in Hi. destruct Hi as (Hb & _ & Ha).
    assert (Forall (fun o => om !! Order.ID o = Some o /\
                             Order.Price o = k /\ onBuySide o = buy)
              (before ++ after)) as Hall by (by apply Forall_app).
    rewrite Forall_forall in Hall. apply Forall_forall. intros o Ho.
    destruct (Hall o Ho) as (Hidx & Hp & Hs). split; [|done].
    rewrite lookup_delete_ne; [done|].
    intros Heq. apply Hnotin. rewrite Heq. apply list_elem_of_fmap. eauto.
Qed.
End LevelInv.

Lemma book_inv_NewOrderBook (symbol : string) : book_inv (NewOrderBook symbol).
Proof.
  split; [apply book_ok_NewOrderBook|]. split.
  - intros []; constructor.
  - intros orderID order Hidx. simpl in Hidx. by rewrite lookup_empty in Hidx.
Qed.

Lemma book_inv_AddOrder (ob : OrderBook) (order : Order.t) :
  OrderMap ob !! Order.ID order = None ->
  Order.FilledQty order = 0 ->
  book_inv ob -> book_inv (AddOrder ob order).
Proof.
  intros Hfresh Hfilled (Hok & Hlevels & Hindex).
  split; [by apply book_ok_AddOrder|]. split.
  - intros buy. rewrite OrderMap_AddOrder, treeOf_AddOrder.
    pose proof (book_ok_treeOf ob buy Hok) as [Hcmp Hsorted Hprice].
    specialize (Hlevels buy). rewrite Forall_forall in Hlevels.
    apply Forall_forall. intros n Hn.
    destruct (Bool.eqb_spec buy (onBuySide order)) as [Hb|Hb];
      [|by apply level_inv_insert_fresh, Hlevels].
    destruct (redblacktree.Get (treeOf buy ob) (Order.Price order)) as [level|] eqn:Hget.
    + unfold redblacktree.Get in Hget. unfold redblacktree.Store in Hn.
      simpl in Hn. rewrite Hcmp in Hget, Hn.
      apply get_Some_elem in Hget; [|apply _].
      apply elem_of_store in Hn as [->|[Hn _]]; [| |apply _|done].
      * unfold stamp. apply level_inv_appended; auto.
      * by apply level_inv_insert_fresh, Hlevels.
    + unfold redblacktree.Put in Hn. simpl in Hn. rewrite Hcmp in Hn.
      apply (elem_of_put (cmpOf buy)) in Hn as [->|Hn].
      * unfold stamp. apply level_inv_appended; auto. apply level_inv_empty.
      * by apply level_inv_insert_fresh, Hlevels.
  - intros orderID o Hidx. rewrite OrderMap_AddOrder in Hidx.
    destruct (decide (Order.ID order = orderID)) as [<-|Hne].
    + rewrite lookup_insert_eq in Hidx. injection Hidx as <-.
      split; [done|].
      rewrite getTree_treeOf, treeOf_AddOrder.
      change (String.eqb (Order.Side (stamp ob order)) Buy) with (onBuySide order).
      change (Order.Price (stamp ob order)) with (Order.Price order).
      rewrite Bool.eqb_reflx.
      pose proof (book_ok_treeOf ob (onBuySide order) Hok) as Htree.
      destruct (redblacktree.Get (treeOf (onBuySide order) ob) (Order.Price order))
        as [level|] eqn:Hget.
      * eexists. split; [by eapply (Get_Store_eq (cmpOf _))|].
        simpl. apply elem_of_app. right. apply list_elem_of_here.
      * eexists. split; [by eapply (Get_Put_eq (cmpOf _))|].
        simpl. apply list_elem_of_here.
    + rewrite lookup_insert_ne in Hidx by done.
      destruct (Hindex orderID o Hidx) as (Hid & level & Hget & Hin).
      split; [done|].
      rewrite getTree_treeOf in *. rewrite treeOf_AddOrder.
      pose proof (book_ok_treeOf ob (String.eqb (Order.Side o) Buy) Hok) as Htree.
      destruct (Bool.eqb_spec (String.eqb (Order.Side o) Buy) (onBuySide order));
        [|by eauto].
      destruct (decide (Order.Price order = Order.Price o)) as [Hp|Hp].
      * rewrite Hp, Hget. eexists. split; [by eapply (Get_Store_eq (cmpOf _))|].
        simpl. apply elem_of_app. by left.
      * exists level. split; [|done].
        destruct (redblacktree.Get (treeOf _ ob) (Order.Price order)).
        -- by erewrite (Get_Store_ne (cmpOf _)).
        -- by erewrite (Get_Put_ne (cmpOf _)).
Qed.

Lemma removeLoop_None (orderID : string) (seen rest : list Order.t) :
  removeLoop orderID seen rest = None -> Forall (fun o => Order.ID o <> orderID) rest.
Proof.
  revert seen. induction rest as [|o rest IH]; intros seen; simpl; [constructor|].
  destruct (String.eqb_spec (Order.ID o) orderID) as [Heq|Hne]; [done|].
  intros Hloop. constructor; [done|]. by eapply IH.
Qed.

Lemma removeLoop_Some (orderID : string) (seen rest result : list Order.t) :
  removeLoop orderID seen rest = Some result ->
  exists before order after,
    rest = before ++ order :: after /\
    Order.ID order = orderID /\
    Forall (fun o => Order.ID o <> orderID) before /\
    result = seen ++ before ++ after.
Proof.
  revert seen. induction rest as [|o rest IH]; intros seen; simpl; [done|].
  destruct (String.eqb_spec (Order.ID o) orderID) as [Heq|Hne].
  - intros [= <-]. exists [], o, rest. repeat split; [done|constructor].
  - intros Hloop. destruct (IH _ Hloop) as (before & order & after & -> & Hid & Hb & ->).
    exists (o :: before), order, after. repeat split; [done|by constructor|].
    by rewrite <- app_assoc.
Qed.

(** In a consistent book the live conditions hold for every indexed identifier. *)
Lemma book_inv_live (ob : OrderBook) (orderID : string) (order : Order.t) :
  book_inv ob ->
  OrderMap ob !! orderID = Some order ->
  exists level before after, live ob orderID order level before after.
Proof.
  intros (Hok & Hlevels & Hindex) Hidx.
  destruct (Hindex orderID order Hidx) as (Hid & level & Hget & Hin).
  pose proof (book_ok_treeOf ob (onBuySide order) Hok) as [Hcmp Hsorted _].
  assert (level_inv (OrderMap ob) (onBuySide order)
            (redblacktree.mkNode (Order.Price order) level)) as [_ _ Hi].
  { specialize (Hlevels (onBuySide order)). rewrite Forall_forall in Hlevels.
    apply Hlevels. rewrite getTree_order in Hget.
    unfold redblacktree.Get in Hget. rewrite Hcmp in Hget.
    by apply get_Some_elem in Hget; [|apply _]. }
  simpl in Hi. rewrite Forall_forall in Hi.
  destruct (removeLoop orderID [] (PriceLevel.Orders level)) as [result|] eqn:Hloop.
  - apply removeLoop_Some in Hloop as (before & o & after & Horders & Hoid & Hb & _).
    exists level, before, after. repeat split; try done.
    assert (o = order) as <-; [|done].
    destruct (Hi o) as (Ho & _).
    { rewrite Horders. apply elem_of_app. right. apply list_elem_of_here. }
    rewrite Hoid in Ho. congruence.
  - apply removeLoop_None in Hloop. rewrite Forall_forall in Hloop.
    by destruct (Hloop order Hin).
Qed.

Lemma book_inv_RemoveOrder (ob : OrderBook) (orderID : string) :
  book_inv ob -> book_inv (fst (RemoveOrder ob orderID)).
Proof.
  intros Hinv.
  destruct (OrderMap ob !! orderID) as [order|] eqn:Hidx; cycle 1.
  { unfold RemoveOrder. by rewrite Hidx. }
  destruct (book_inv_live ob orderID order Hinv Hidx)
    as (level & before & after & _ & Hget & Horders & Hid & Hbefore).
  destruct Hinv as (Hok & Hlevels & Hindex).
  set (buy := onBuySide order) in *.
  set (k := Order.Price order) in *.
  pose proof (book_ok_treeOf ob buy Hok) as Htree.
  rewrite getTree_order in Hget. fold buy in Hget.
  set (level' := PriceLevel.mk (PriceLevel.Price level) (before ++ after)
                   (PriceLevel.Volume level - (Order.Quantity order - Order.FilledQty order))).
  assert (afterLoop level orderID order = level') as Hafter.
  { unfold afterLoop. by rewrite Horders, (removeLoop_first orderID order [] before after). }
  set (stored := redblacktree.Store (treeOf buy ob) k level').
  assert (tree_ok (cmpOf buy) stored) as Hstored.
  { apply tree_ok_Store; [apply _| |done]. simpl.
    by eapply (tree_ok_Get_price (cmpOf buy)). }
  assert (forall b, treeOf b (fst (RemoveOrder ob orderID))
                    = if Bool.eqb b buy
                      then if (length (before ++ after) =? 0)%nat
                           then redblacktree.Remove stored k else stored
                      else treeOf b ob) as Htrees.
  { intros b. rewrite treeOf_RemoveOrder, Hidx. fold buy k.
    destruct (Bool.eqb_spec b buy) as [->|]; [|done].
    by rewrite Hget, Hafter. }
  (* An order carrying [orderID] can only sit in the level found above. *)
  assert (forall b n o,
             n ∈ redblacktree.nodes (treeOf b ob) ->
             o ∈ PriceLevel.Orders (redblacktree.Value n) ->
             Order.ID o = orderID -> b = buy /\ redblacktree.Key n = k) as Hunique.
  { intros b n o Hn Ho Hoid.
    specialize (Hlevels b). rewrite Forall_forall in Hlevels.
    destruct (Hlevels n Hn) as [_ _ Hi]. rewrite Forall_forall in Hi.
    destruct (Hi o Ho) as (Hlook & Hp & Hs).
    rewrite Hoid, Hidx in Hlook. injection Hlook as ->. by subst buy k. }
  split; [by apply book_ok_RemoveOrder|]. split.
  - intros b. rewrite OrderMap_RemoveOrder, Htrees.
    pose proof (Hlevels b) as Hb. rewrite Forall_forall in Hb.
    apply Forall_forall. intros n Hn.
    assert (n ∈ redblacktree.nodes (treeOf b ob) -> (b = buy -> redblacktree.Key n <> k) ->
            level_inv (delete orderID (OrderMap ob)) b n) as Hold.
    { intros Hin Hkey. apply level_inv_delete; [|by apply Hb].
      apply Forall_forall. intros o Ho Hoid.
      destruct (Hunique b n o Hin Ho Hoid) as [Hbb Hk]. by apply Hkey. }
    destruct (Bool.eqb_spec b buy) as [->|Hb']; [|by apply Hold].
    destruct Htree as [Hcmp Hsorted _].
    assert (n ∈ redblacktree.store (cmpOf buy) k level'
                  (redblacktree.nodes (treeOf buy ob))) as Hn'.
    { destruct (_ =? _)%nat; unfold redblacktree.Remove, stored, redblacktree.Store in Hn;
        simpl in Hn; rewrite Hcmp in Hn; [|done].
      by apply (elem_of_remove (cmpOf buy)) in Hn. }
    apply (elem_of_store (cmpOf buy)) in Hn' as [->|[Hin Hk]]; [| |done].
    + rewrite <- Hid. apply level_inv_removed; [done|].
      apply Hb. unfold redblacktree.Get in Hget. rewrite Hcmp in Hget.
      by apply get_Some_elem in Hget; [|apply _].
    + by apply Hold.
  - intros id2 o2 Hidx2. rewrite OrderMap_RemoveOrder in Hidx2.
    destruct (decide (orderID = id2)) as [->|Hne];
      [by rewrite lookup_delete_eq in Hidx2|].
    rewrite lookup_delete_ne in Hidx2 by done.
    destruct (Hindex id2 o2 Hidx2) as (Hid2 & level2 & Hget2 & Hin2).
    split; [done|].
    rewrite getTree_order in *. rewrite Htrees.
    destruct (Bool.eqb_spec (onBuySide o2) buy) as [Hside|Hside];
      [|by eauto].
    rewrite Hside in *.
    destruct (decide (k = Order.Price o2)) as [Hp|Hp].
    + rewrite <- Hp in *. rewrite Hget in Hget2. injection Hget2 as <-.
      assert (o2 ∈ before ++ after) as Hin'.
      { rewrite Horders in Hin2. rewrite elem_of_app, elem_of_cons in Hin2.
        rewrite elem_of_app. destruct Hin2 as [?|[->|?]]; [by left| |by right].
        congruence. }
      exists level'. split; [|done].
      destruct (before ++ after) eqn:Hrest; [by apply not_elem_of_nil in Hin'|].
      simpl. by eapply (Get_Store_eq (cmpOf buy)).
    + exists level2. split; [|done].
      assert (redblacktree.Get stored (Order.Price o2) = Some level2) as Hstill.
      { unfold stored. by rewrite (Get_Store_ne (cmpOf buy)). }
      destruct (_ =? _)%nat; [|done]. by rewrite (Get_Remove_ne (cmpOf buy)).
Qed.

Lemma Disciplined_book_inv (ob : OrderBook) : Disciplined ob -> book_inv ob.
Proof.
  induction 1.
  - apply book_inv_NewOrderBook.
  - by apply book_inv_AddOrder.
  - by apply book_inv_RemoveOrder.
Qed.


(** ** Exact volume arithmetic *)










(** Within the precondition of insertion every indexed identifier is live. *)
Lemma Disciplined_live (ob : OrderBook) (orderID : string) (order : Order.t) :
  Disciplined ob ->
  OrderMap ob !! orderID = Some order ->
  exists level before after, live ob orderID order level before after.
Proof. intros Hd. apply book_inv_live. by apply Disciplined_book_inv. Qed.

(** ** Volume of a level *)




(** * Further properties of the book *)

(** ** The comparators of [NewOrderBook] *)

(** X1.  Both comparators answer -1, 0 or 1 only, answer 0 exactly on
    equal prices, and are each other's mirror image: the buy comparator
    puts the higher price first, the sell comparator the lower one. *)
Theorem comparators_mirror (a b : Z) :
  (buyComparator a b = -1 <-> b < a) /\
  (buyComparator a b = 0 <-> a = b) /\
  (buyComparator a b = 1 <-> a < b) /\
  (sellComparator a b = -1 <-> a < b) /\
  (sellComparator a b = 0 <-> a = b) /\
  (sellComparator a b = 1 <-> b < a) /\
  buyComparator a b = sellComparator b a /\
  buyComparator a b = - buyComparator b a.
Proof.
  unfold buyComparator, sellComparator.
  destruct (Z.gtb_spec a b), (Z.ltb_spec a b), (Z.gtb_spec b a), (Z.ltb_spec b a);
    repeat split; intros; lia.
Qed.

(** ** Lookup *)

(** X2.  [GetOrder] after a mutation: after [AddOrder] the order's
    identifier resolves to the stamped order and every other identifier
    resolves as before; after [RemoveOrder] the removed identifier
    resolves to nothing and every other identifier resolves as before;
    and what [RemoveOrder] returns is what [GetOrder] answered for that
    identifier just before. *)
Theorem GetOrder_after (ob : OrderBook) (order : Order.t) (orderID id : string) :
  GetOrder (AddOrder ob order) id
  = (if decide (id = Order.ID order) then Some (stamp ob order) else GetOrder ob id) /\
  GetOrder (fst (RemoveOrder ob orderID)) id
  = (if decide (id = orderID) then None else GetOrder ob id) /\
  snd (RemoveOrder ob orderID) = GetOrder ob orderID.
Proof.
  unfold GetOrder. rewrite OrderMap_AddOrder, OrderMap_RemoveOrder, result_RemoveOrder.
  repeat split.
  - destruct (decide (id = Order.ID order)) as [->|Hne].
    + apply lookup_insert_eq.
    + by rewrite lookup_insert_ne.
  - destruct (decide (id = orderID)) as [->|Hne].
    + apply lookup_delete_eq.
    + by rewrite lookup_delete_ne.
Qed.

(** X3.  [Size] counts identifiers: it is never negative and is 0
    exactly when no identifier resolves; [AddOrder] raises it by one
    when the identifier was not indexed and leaves it unchanged when it
    was; [RemoveOrder] lowers it by one when the identifier was indexed
    and leaves it unchanged otherwise. *)
Theorem Size_after (ob : OrderBook) (order : Order.t) (orderID : string) :
  0 <= Size ob /\
  (Size ob = 0 <-> forall id, GetOrder ob id = None) /\
  Size (AddOrder ob order)
  = match GetOrder ob (Order.ID order) with
    | Some _ => Size ob
    | None => Size ob + 1
    end /\
  Size (fst (RemoveOrder ob orderID))
  = match GetOrder ob orderID with
    | Some _ => Size ob - 1
    | None => Size ob
    end.
Proof.
  unfold Size, GetOrder. rewrite OrderMap_AddOrder, OrderMap_RemoveOrder.
  split; [lia|]. split; [|split].
  - split.
    + intros Hz id. assert (size (OrderMap ob) = 0%nat) as Hs by lia.
      apply map_size_empty_inv in Hs. rewrite Hs. apply lookup_empty.
    + intros Hnone. assert (OrderMap ob = ∅) as ->; [|by rewrite map_size_empty].
      apply map_eq. intros id. by rewrite Hnone, lookup_empty.
  - rewrite map_size_insert. destruct (OrderMap ob !! Order.ID order); simpl; lia.
  - rewrite map_size_delete.
    destruct (OrderMap ob !! orderID) as [o|] eqn:Hidx; simpl; [|done].
    assert (size (OrderMap ob) <> 0%nat); [|lia].
    intros Hz. apply map_size_empty_inv in Hz. rewrite Hz in Hidx.
    by rewrite lookup_empty in Hidx.
Qed.

(** ** Insertion *)

(** X4.  On a well-formed book [AddOrder] files the order by its side
    string - ["BUY"] in the buy tree, any other string in the sell
    tree - and leaves the other tree as it was.  In the chosen tree the
    level at the order's price afterwards has that price, the previous
    orders of that level (none for a new level) followed by the stamped
    order, and the previous [Volume] (0 for a new level) plus the
    order's [Quantity]; every other price of that tree answers as
    before. *)
Theorem AddOrder_spec (ob : OrderBook) (order : Order.t) :
  book_ok ob ->
  (Order.Side order = Buy -> SellTree (AddOrder ob order) = SellTree ob) /\
  (Order.Side order <> Buy -> BuyTree (AddOrder ob order) = BuyTree ob) /\
  (exists level,
      redblacktree.Get (if decide (Order.Side order = Buy)
                        then BuyTree (AddOrder ob order)
                        else SellTree (AddOrder ob order)) (Order.Price order)
      = Some level /\
      PriceLevel.Price level = Order.Price order /\
      PriceLevel.Orders level
      = match redblacktree.Get (getTree ob (Order.Side order)) (Order.Price order) with
        | Some old => PriceLevel.Orders old
        | None => []
        end ++ [stamp ob order] /\
      PriceLevel.Volume level
      = match redblacktree.Get (getTree ob (Order.Side order)) (Order.Price order) with
        | Some old => PriceLevel.Volume old
        | None => 0
        end + Order.Quantity order) /\
  (forall k, k <> Order.Price order ->
     redblacktree.Get (getTree (AddOrder ob order) (Order.Side order)) k
     = redblacktree.Get (getTree ob (Order.Side order)) k).
Proof.
  intros Hok.
  pose proof (book_ok_treeOf ob (onBuySide order) Hok) as Htree.
  assert (onBuySide order = true <-> Order.Side order = Buy) as Hside.
  { unfold onBuySide. apply String.eqb_eq. }
  split; [|split; [|split]].
  - intros Hbuy. apply Hside in Hbuy.
    change (SellTree ?b) with (treeOf false b). by rewrite treeOf_AddOrder, Hbuy.
  - intros Hsell. change (BuyTree ?b) with (treeOf true b).
    rewrite treeOf_AddOrder. destruct (onBuySide order) eqn:Hb; [|done].
    by destruct Hsell; apply Hside.
  - assert ((if decide (Order.Side order = Buy)
             then BuyTree (AddOrder ob order) else SellTree (AddOrder ob order))
            = treeOf (onBuySide order) (AddOrder ob order)) as ->.
    { destruct (decide (Order.Side order = Buy)) as [Hb|Hb].
      - apply Hside in Hb. by rewrite Hb.
      - destruct (onBuySide order) eqn:Hb'; [|done]. by destruct Hb; apply Hside. }
    rewrite getTree_order, treeOf_AddOrder, Bool.eqb_reflx.
    destruct (redblacktree.Get (treeOf (onBuySide order) ob) (Order.Price order))
      as [old|] eqn:Hget.
    + eexists. split; [by eapply (Get_Store_eq (cmpOf _))|].
      simpl. split; [|done]. by eapply (tree_ok_Get_price (cmpOf _)).
    + eexists. split; [by eapply (Get_Put_eq (cmpOf _))|]. done.
  - intros k Hk. rewrite !getTree_order, treeOf_AddOrder, Bool.eqb_reflx.
    destruct (redblacktree.Get (treeOf (onBuySide order) ob) (Order.Price order)).
    + by rewrite (Get_Store_ne (cmpOf (onBuySide order))).
    + by rewrite (Get_Put_ne (cmpOf (onBuySide order))).
Qed.

Lemma AddOrder_spec_witness :
  BuyTree (AddOrder bookABC orderT) = BuyTree bookABC /\
  redblacktree.Get (getTree (AddOrder bookABC orderT) (Order.Side orderT)) 100
  = redblacktree.Get (getTree bookABC (Order.Side orderT)) 100.
Proof.
  destruct (AddOrder_spec bookABC orderT) as (_ & Hbuy & _ & Hother).
  - book_ok_by_eval.
  - split; [apply Hbuy; discriminate | apply Hother; discriminate].
Defined.

(** ** Best prices under the mutators *)

Lemma GetBestBid_bestKey (ob : OrderBook) :
  GetBestBid ob = match bestKey (BuyTree ob) with
                  | Some p => (p, true)
                  | None => (0, false)
                  end.
Proof.
  unfold GetBestBid, bestKey, redblacktree.Size, redblacktree.Left.
  by destruct (redblacktree.nodes (BuyTree ob)).
Qed.

Lemma GetBestAsk_bestKey (ob : OrderBook) :
  GetBestAsk ob = match bestKey (SellTree ob) with
                  | Some p => (p, true)
                  | None => (0, false)
                  end.
Proof.
  unfold GetBestAsk, bestKey, redblacktree.Size, redblacktree.Left.
  by destruct (redblacktree.nodes (SellTree ob)).
Qed.

Lemma Keys_Store (t : redblacktree.Tree PriceLevel.t) (k : Z) (level : PriceLevel.t) :
  redblacktree.Keys (redblacktree.Store t k level) = redblacktree.Keys t.
Proof.
  unfold redblacktree.Keys, redblacktree.Store. simpl.
  induction (redblacktree.nodes t) as [|n ns IH]; simpl; [done|].
  destruct (_ =? 0); [done|]. destruct (_ <? 0); [done|]. simpl. by rewrite IH.
Qed.

Lemma bestKey_Keys (t : redblacktree.Tree PriceLevel.t) :
  bestKey t = head (redblacktree.Keys t).
Proof.
  unfold bestKey, redblacktree.Left, redblacktree.Keys.
  by destruct (redblacktree.nodes t).
Qed.

Lemma bestKey_Store (t : redblacktree.Tree PriceLevel.t) (k : Z) (level : PriceLevel.t) :
  bestKey (redblacktree.Store t k level) = bestKey t.
Proof. by rewrite !bestKey_Keys, Keys_Store. Qed.

Lemma bestKey_Put (t : redblacktree.Tree PriceLevel.t) (k : Z) (level : PriceLevel.t) :
  bestKey (redblacktree.Put t k level)
  = Some match bestKey t with
         | Some b => if redblacktree.Cmp t k b <=? 0 then k else b
         | None => k
         end.
Proof.
  unfold bestKey, redblacktree.Left, redblacktree.Put. simpl.
  destruct (redblacktree.nodes t) as [|n ns]; simpl; [done|].
  destruct (Z.eqb_spec (redblacktree.Cmp t k (redblacktree.Key n)) 0) as [Heq|Hne].
  - simpl. rewrite Heq. done.
  - destruct (Z.ltb_spec (redblacktree.Cmp t k (redblacktree.Key n)) 0);
      destruct (Z.leb_spec (redblacktree.Cmp t k (redblacktree.Key n)) 0);
      simpl; try done; lia.
Qed.

(** The first key of a well-formed tree is least among its keys. *)
Lemma bestKey_least (c : redblacktree.Comparator) `{!TotalComparator c}
    (t : redblacktree.Tree PriceLevel.t) (b k : Z) :
  tree_ok c t -> bestKey t = Some b -> k ∈ redblacktree.Keys t -> c b k <= 0.
Proof.
  intros Hok Hb Hk. unfold bestKey in Hb.
  destruct (redblacktree.Left t) as [n|] eqn:Hleft; [|done].
  injection Hb as <-. by eapply Left_least.
Qed.

Lemma Get_Some_Keys (c : redblacktree.Comparator) `{!TotalComparator c}
    (t : redblacktree.Tree PriceLevel.t) (k : Z) (level : PriceLevel.t) :
  tree_ok c t -> redblacktree.Get t k = Some level -> k ∈ redblacktree.Keys t.
Proof.
  intros [Hc _ _] Hget. unfold redblacktree.Get in Hget. rewrite Hc in Hget.
  apply get_Some_elem in Hget; [|done].
  unfold redblacktree.Keys.
  change (map redblacktree.Key ?l) with (redblacktree.Key <$> l).
  apply list_elem_of_fmap. by exists (redblacktree.mkNode k level).
Qed.

(** The best key of the chosen tree after [AddOrder]: the order's price
    when it comes before the old best key in comparator order, else the
    old one. *)
Lemma bestKey_AddOrder (ob : OrderBook) (order : Order.t) :
  book_ok ob ->
  bestKey (treeOf (onBuySide order) (AddOrder ob order))
  = Some match bestKey (treeOf (onBuySide order) ob) with
         | Some b => if cmpOf (onBuySide order) (Order.Price order) b <=? 0
                     then Order.Price order else b
         | None => Order.Price order
         end.
Proof.
  intros Hok.
  pose proof (book_ok_treeOf ob (onBuySide order) Hok) as Htree.
  rewrite treeOf_AddOrder, Bool.eqb_reflx.
  destruct (redblacktree.Get (treeOf (onBuySide order) ob) (Order.Price order))
    as [old|] eqn:Hget.
  - rewrite bestKey_Store.
    pose proof (Get_Some_Keys _ _ _ _ Htree Hget) as Hin.
    destruct (bestKey (treeOf (onBuySide order) ob)) as [b|] eqn:Hbest.
    + pose proof (bestKey_least _ _ _ _ Htree Hbest Hin) as Hle.
      destruct (Z.leb_spec (cmpOf (onBuySide order) (Order.Price order) b) 0) as [Hle'|];
        [|done].
      f_equal. apply (cmp_eq (c := cmpOf (onBuySide order))).
      pose proof (cmp_flip (c := cmpOf (onBuySide order)) b (Order.Price order)).
      pose proof (cmp_flip (c := cmpOf (onBuySide order)) (Order.Price order) b).
      lia.
    + rewrite bestKey_Keys in Hbest.
      destruct (redblacktree.Keys (treeOf (onBuySide order) ob)); [|done].
      by apply not_elem_of_nil in Hin.
  - rewrite bestKey_Put. by destruct Htree as [-> _ _].
Qed.

(** X5.  Top of book after an insertion into a well-formed book.  A
    buy order makes the best bid the higher of the old best bid and its
    price (its price when there was no bid) and leaves the best ask
    alone; an order of any other side makes the best ask the lower of
    the old best ask and its price (its price when there was no ask)
    and leaves the best bid alone. *)
Theorem AddOrder_best (ob : OrderBook) (order : Order.t) :
  book_ok ob ->
  (Order.Side order = Buy ->
   GetBestBid (AddOrder ob order)
   = (if snd (GetBestBid ob)
      then Z.max (fst (GetBestBid ob)) (Order.Price order)
      else Order.Price order, true) /\
   GetBestAsk (AddOrder ob order) = GetBestAsk ob) /\
  (Order.Side order <> Buy ->
   GetBestAsk (AddOrder ob order)
   = (if snd (GetBestAsk ob)
      then Z.min (fst (GetBestAsk ob)) (Order.Price order)
      else Order.Price order, true) /\
   GetBestBid (AddOrder ob order) = GetBestBid ob).
Proof.
  intros Hok. pose proof (bestKey_AddOrder ob order Hok) as Hbest.
  rewrite !GetBestBid_bestKey, !GetBestAsk_bestKey.
  split; intros Hside.
  - assert (onBuySide order = true) as Hb by (by apply String.eqb_eq).
    rewrite Hb in Hbest. simpl in Hbest. split.
    + rewrite Hbest. destruct (bestKey (BuyTree ob)) as [b|]; simpl; [|done].
      pose proof (buyComparator_le (Order.Price order) b).
      destruct (Z.leb_spec (buyComparator (Order.Price order) b) 0); f_equal; lia.
    + change (SellTree ?b) with (treeOf false b). by rewrite treeOf_AddOrder, Hb.
  - assert (onBuySide order = false) as Hb.
    { unfold onBuySide. by apply String.eqb_neq. }
    rewrite Hb in Hbest. simpl in Hbest. split.
    + rewrite Hbest. destruct (bestKey (SellTree ob)) as [b|]; simpl; [|done].
      pose proof (sellComparator_le (Order.Price order) b).
      destruct (Z.leb_spec (sellComparator (Order.Price order) b) 0); f_equal; lia.
    + change (BuyTree ?b) with (treeOf true b). by rewrite treeOf_AddOrder, Hb.
Qed.

Lemma AddOrder_best_witness :
  GetBestBid (AddOrder bookTwoSided orderC) = (101, true) /\
  GetBestAsk (AddOrder bookABC orderT) = (103, true).
Proof.
  destruct (AddOrder_best bookTwoSided orderC) as [Hbuy _]; [book_ok_by_eval|].
  destruct (AddOrder_best bookABC orderT) as [_ Hsell]; [book_ok_by_eval|].
  split.
  - destruct Hbuy as [Hbid _]; [reflexivity|]. exact Hbid.
  - destruct Hsell as [Hask _]; [discriminate|]. exact Hask.
Defined.

(** [RemoveOrder] adds no key to either tree. *)
Lemma Keys_RemoveOrder (ob : OrderBook) (orderID : string) (buy : bool) (k : Z) :
  book_ok ob ->
  k ∈ redblacktree.Keys (treeOf buy (fst (RemoveOrder ob orderID))) ->
  k ∈ redblacktree.Keys (treeOf buy ob).
Proof.
  intros Hok. rewrite treeOf_RemoveOrder.
  destruct (OrderMap ob !! orderID) as [order|]; [|done].
  destruct (Bool.eqb buy (onBuySide order)); [|done].
  destruct (redblacktree.Get (treeOf buy ob) (Order.Price order)) as [level|]; [|done].
  cbv zeta. intros Hin.
  rewrite <- (Keys_Store (treeOf buy ob) (Order.Price order)
                (afterLoop level orderID order)).
  destruct (_ =? _)%nat; [|done].
  unfold redblacktree.Keys, redblacktree.Remove in *. simpl in Hin.
  change (map redblacktree.Key ?l) with (redblacktree.Key <$> l) in *.
  apply list_elem_of_fmap in Hin as [n [-> Hn]].
  apply list_elem_of_fmap. exists n. split; [done|].
  destruct (book_ok_treeOf ob buy Hok) as [Hc _ _].
  simpl in Hn. rewrite Hc in Hn.
  apply (elem_of_remove (cmpOf buy)) in Hn.
  unfold redblacktree.Store. simpl. by rewrite Hc.
Qed.

(** X6.  On a well-formed book [RemoveOrder] never improves the top of
    the book: a best bid reported afterwards is at most the best bid
    reported before, a best ask reported afterwards is at least the
    best ask reported before, and a side that was empty stays empty. *)
Theorem RemoveOrder_best (ob : OrderBook) (orderID : string) :
  book_ok ob ->
  (forall p', GetBestBid (fst (RemoveOrder ob orderID)) = (p', true) ->
              exists p, GetBestBid ob = (p, true) /\ p' <= p) /\
  (forall p', GetBestAsk (fst (RemoveOrder ob orderID)) = (p', true) ->
              exists p, GetBestAsk ob = (p, true) /\ p <= p').
Proof.
  intros Hok.
  assert (forall buy p',
             bestKey (treeOf buy (fst (RemoveOrder ob orderID))) = Some p' ->
             exists p, bestKey (treeOf buy ob) = Some p /\ cmpOf buy p p' <= 0) as Hkey.
  { intros buy p' Hbest.
    assert (p' ∈ redblacktree.Keys (treeOf buy ob)) as Hin.
    { apply (Keys_RemoveOrder ob orderID); [done|].
      rewrite bestKey_Keys in Hbest.
      destruct (redblacktree.Keys _) as [|k ks]; [done|].
      injection Hbest as <-. apply list_elem_of_here. }
    destruct (bestKey (treeOf buy ob)) as [p|] eqn:Hold.
    - exists p. split; [done|].
      eapply (bestKey_least (cmpOf buy)); [by apply book_ok_treeOf|done|done].
    - rewrite bestKey_Keys in Hold.
      destruct (redblacktree.Keys (treeOf buy ob)); [|done].
      by apply not_elem_of_nil in Hin. }
  rewrite !GetBestBid_bestKey, !GetBestAsk_bestKey. split; intros p' Hafter.
  - destruct (bestKey (BuyTree (fst (RemoveOrder ob orderID)))) as [q|] eqn:Hq; [|done].
    injection Hafter as ->.
    destruct (Hkey true p' Hq) as (p & Hp & Hle). simpl in Hp, Hle.
    exists p. rewrite Hp. split; [done|]. by apply buyComparator_le.
  - destruct (bestKey (SellTree (fst (RemoveOrder ob orderID)))) as [q|] eqn:Hq; [|done].
    injection Hafter as ->.
    destruct (Hkey false p' Hq) as (p & Hp & Hle). simpl in Hp, Hle.
    exists p. rewrite Hp. split; [done|]. by apply sellComparator_le.
Qed.

Lemma RemoveOrder_best_witness :
  exists p, GetBestBid bookTwoSided = (p, true) /\ 100 <= p.
Proof.
  destruct (RemoveOrder_best bookTwoSided "D") as [Hbid _]; [book_ok_by_eval|].
  apply (Hbid 100). vm_compute. reflexivity.
Defined.

(** ** Price levels of reachable books *)

(** X7.  In every book reached from [NewOrderBook] by [AddOrder] and
    [RemoveOrder] calls, the bid levels come in strictly descending
    price order and the ask levels in strictly ascending price order -
    so a price has at most one level per side - and looking a level's
    price up in its tree finds that very level. *)
Theorem Reachable_levels_ordered (ob : OrderBook) :
  Reachable ob ->
  StronglySorted (fun a b => PriceLevel.Price b < PriceLevel.Price a)
    (levelsOf (BuyTree ob)) /\
  StronglySorted (fun a b => PriceLevel.Price a < PriceLevel.Price b)
    (levelsOf (SellTree ob)) /\
  (forall level, level ∈ levelsOf (BuyTree ob) ->
     redblacktree.Get (BuyTree ob) (PriceLevel.Price level) = Some level) /\
  (forall level, level ∈ levelsOf (SellTree ob) ->
     redblacktree.Get (SellTree ob) (PriceLevel.Price level) = Some level).
Proof.
  intros Hr. destruct (Reachable_book_ok ob Hr) as [Hb Hs].
  assert (forall c t, TotalComparator c -> tree_ok c t ->
            forall level, level ∈ levelsOf t ->
              redblacktree.Get t (PriceLevel.Price level) = Some level) as Hfound.
  { intros c t Hc [Hcmp Hsorted Hprice] level Hin.
    unfold levelsOf in Hin.
    change (map redblacktree.Value ?l) with (redblacktree.Value <$> l) in Hin.
    apply list_elem_of_fmap in Hin as [n [-> Hn]].
    rewrite Forall_forall in Hprice. rewrite (Hprice n Hn).
    unfold redblacktree.Get. rewrite Hcmp. by apply sorted_elem_get. }
  repeat split.
  - eapply StronglySorted_weaken; [|apply (levelsOf_sorted _ _ Hb)].
    intros a b. simpl. apply buyComparator_lt.
  - eapply StronglySorted_weaken; [|apply (levelsOf_sorted _ _ Hs)].
    intros a b. simpl. apply sellComparator_lt.
  - apply (Hfound buyComparator); [apply _|done].
  - apply (Hfound sellComparator); [apply _|done].
Qed.

Lemma Reachable_levels_ordered_witness :
  StronglySorted (fun a b => PriceLevel.Price b < PriceLevel.Price a)
    (levelsOf (BuyTree bookTwoSided)).
Proof.
  apply (Reachable_levels_ordered bookTwoSided).
  exact (Reachable_add _ _ (Reachable_add _ _ (Reachable_add _ _
           (Reachable_add _ _ (Reachable_add _ _ (Reachable_new _)))))).
Defined.

(** ** Depth *)

(** X8.  [GetDepth] does not return for a count that [make] is not
    granted: a negative one, one above [runtimeMaxCap], or one above
    what the heap can provide.  For granted counts [n <= m] the bids
    and asks of depth [n] are the leading entries of those of depth
    [m], and once [n] reaches the number of levels of a side the whole
    side is returned; depth 0 returns two empty sequences. *)
Theorem GetDepth_prefix (avail : Z) (ob : OrderBook) (n m : Z) :
  (n < 0 \/ runtimeMaxCap < n \/ avail < n -> GetDepth avail ob n = None) /\
  (0 <= n <= m -> m <= runtimeMaxCap -> m <= avail ->
   exists bids asks bids' asks',
     GetDepth avail ob n = Some (bids, asks) /\
     GetDepth avail ob m = Some (bids', asks') /\
     bids `prefix_of` bids' /\ asks `prefix_of` asks' /\
     (n = 0 -> bids = [] /\ asks = []) /\
     (redblacktree.Size (BuyTree ob) <= n -> bids = levelsOf (BuyTree ob)) /\
     (redblacktree.Size (SellTree ob) <= n -> asks = levelsOf (SellTree ob))).
Proof.
  split.
  - intros Hn. unfold GetDepth, makeGranted.
    destruct (Z.leb_spec 0 n); [|done].
    destruct (Z.leb_spec n runtimeMaxCap); [|done].
    destruct (Z.leb_spec n avail); [|done]. lia.
  - intros [Hn Hm] Hcap Havail.
    assert (forall d, 0 <= d <= m ->
              GetDepth avail ob d
              = Some (take (Z.to_nat d) (levelsOf (BuyTree ob)),
                      take (Z.to_nat d) (levelsOf (SellTree ob)))) as Hd.
    { intros d Hd. unfold GetDepth, makeGranted.
      destruct (Z.leb_spec 0 d); [|lia].
      destruct (Z.leb_spec d runtimeMaxCap); [|lia].
      destruct (Z.leb_spec d avail); [|lia]. simpl.
      unfold redblacktree.Iterator. by rewrite !depthLoop_take, Z.sub_0_r. }
    assert (forall l : list PriceLevel.t,
              take (Z.to_nat n) l `prefix_of` take (Z.to_nat m) l) as Hpre.
    { intros l. replace (Z.to_nat n) with (Z.to_nat n `min` Z.to_nat m)%nat by lia.
      rewrite <- take_take. apply prefix_take. }
    do 4 eexists. split; [apply Hd; lia|]. split; [apply Hd; lia|].
    split; [apply Hpre|]. split; [apply Hpre|]. repeat split.
    + by subst n.
    + by subst n.
    + intros Hsize. apply take_ge. unfold levelsOf, redblacktree.Size in *.
      rewrite length_map. lia.
    + intros Hsize. apply take_ge. unfold levelsOf, redblacktree.Size in *.
      rewrite length_map. lia.
Qed.

Lemma GetDepth_prefix_witness :
  GetDepth 1000 bookTwoSided (-1) = None /\
  GetDepth 1000 bookTwoSided 1001 = None /\
  exists bids asks bids' asks',
    GetDepth 1000 bookTwoSided 1 = Some (bids, asks) /\
    GetDepth 1000 bookTwoSided 2 = Some (bids', asks') /\
    bids `prefix_of` bids' /\ asks `prefix_of` asks'.
Proof.
  destruct (GetDepth_prefix 1000 bookTwoSided (-1) 0) as [Hneg _].
  destruct (GetDepth_prefix 1000 bookTwoSided 1001 0) as [Hbig _].
  destruct (GetDepth_prefix 1000 bookTwoSided 1 2) as [_ Hpre].
  split; [apply Hneg; lia|]. split; [apply Hbig; lia|].
  destruct Hpre as (bids & asks & bids' & asks' & H1 & H2 & Hb & Ha & _);
    [lia | vm_compute; discriminate | lia |].
  exists bids, asks, bids', asks'. done.
Defined.

(** ** Undoing an insertion *)

Section TreeUndo.
Import redblacktree.
Context {V : Type} (c : Comparator).
Implicit Types (k : Z) (v : V) (ns : list (Node V)).

(** A value found by the descent is the value of one of the nodes. *)
Lemma get_Some_Value k v ns :
  get c k ns = Some v -> exists n, n ∈ ns /\ Value n = v.
Proof.
  induction ns as [|n ns IH]; simpl; [done|].
  destruct (c k (Key n) =? 0).
  - intros [= <-]. exists n. split; [apply list_elem_of_here|done].
  - destruct (c k (Key n) <? 0); [done|].
    intros Hget. destruct (IH Hget) as (m & Hm & Hv).
    exists m. split; [by apply list_elem_of_further|done].
Qed.


End TreeUndo.

Lemma Symbol_setTree (ob : OrderBook) (side : OrderSide) t :
  Symbol (setTree ob side t) = Symbol ob.
Proof. unfold setTree. by destruct (String.eqb side Buy). Qed.


Lemma Symbol_RemoveOrder (ob : OrderBook) (orderID : string) :
  Symbol (fst (RemoveOrder ob orderID)) = Symbol ob.
Proof.
  unfold RemoveOrder. destruct (OrderMap ob !! orderID) as [order|]; [|done].
  destruct (redblacktree.Get _ _); simpl; [|done]. by rewrite Symbol_setTree.
Qed.




Lemma Disciplined_bookABC : Disciplined bookABC.
Proof.
  apply (Disciplined_add _ orderC); [|reflexivity|reflexivity].
  apply (Disciplined_add _ orderB); [|reflexivity|reflexivity].
  apply (Disciplined_add _ orderA); [|reflexivity|reflexivity].
  apply Disciplined_new.
Qed.


(** ** Index and levels agree *)

(** X10.  In a book built from fresh, unfilled adds the index and the
    levels describe the same orders.  Every order resting in a level is
    what its identifier resolves to, carries the level's price, and is
    a ["BUY"] order exactly when the level is in the buy tree; no
    identifier occurs twice in a level; and every identifier that
    resolves does so to an order filed under that identifier and
    resting in the level at its price on its side. *)
Theorem Disciplined_lookup_consistent (ob : OrderBook) :
  Disciplined ob ->
  (forall buy level o,
      level ∈ levelsOf (treeOf buy ob) ->
      o ∈ PriceLevel.Orders level ->
      GetOrder ob (Order.ID o) = Some o /\
      Order.Price o = PriceLevel.Price level /\
      (Order.Side o = Buy <-> buy = true)) /\
  (forall buy level,
      level ∈ levelsOf (treeOf buy ob) ->
      NoDup (Order.ID <$> PriceLevel.Orders level)) /\
  (forall orderID o,
      GetOrder ob orderID = Some o ->
      Order.ID o = orderID /\
      exists level,
        redblacktree.Get (getTree ob (Order.Side o)) (Order.Price o) = Some level /\
        o ∈ PriceLevel.Orders level).
Proof.
  intros Hd. destruct (Disciplined_book_inv ob Hd) as (Hok & Hlevels & Hindex).
  assert (forall buy level,
             level ∈ levelsOf (treeOf buy ob) ->
             exists n, n ∈ redblacktree.nodes (treeOf buy ob) /\
                       level = redblacktree.Value n /\
                       PriceLevel.Price level = redblacktree.Key n /\
                       level_inv (OrderMap ob) buy n) as Hnode.
  { intros buy level Hin. unfold levelsOf in Hin.
    change (map redblacktree.Value ?l) with (redblacktree.Value <$> l) in Hin.
    apply list_elem_of_fmap in Hin as [n [-> Hn]].
    exists n. split; [done|]. split; [done|].
    destruct (book_ok_treeOf ob buy Hok) as [_ _ Hprice].
    specialize (Hlevels buy). rewrite Forall_forall in Hprice, Hlevels. auto. }
  split; [|split].
  - intros buy level o Hin Ho.
    destruct (Hnode buy level Hin) as (n & _ & -> & Hprice & [_ _ Hi]).
    rewrite Forall_forall in Hi. destruct (Hi o Ho) as (Hidx & Hp & Hs).
    split; [done|]. split; [congruence|].
    rewrite <- Hs. unfold onBuySide. symmetry. apply String.eqb_eq.
  - intros buy level Hin.
    by destruct (Hnode buy level Hin) as (n & _ & -> & _ & [_ Hnd _]).
  - exact Hindex.
Qed.

Lemma Disciplined_lookup_consistent_witness :
  GetOrder bookABC (Order.ID stampedB) = Some stampedB /\
  Order.Price stampedB = PriceLevel.Price levelABC.
Proof.
  destruct (Disciplined_lookup_consistent bookABC Disciplined_bookABC) as (Hresting & _).
  destruct (Hresting true levelABC stampedB) as (Hidx & Hprice & _).
  - vm_compute. apply list_elem_of_here.
  - vm_compute. apply list_elem_of_further, list_elem_of_here.
  - done.
Defined.

(** ** Time priority inside a level *)

Lemma seq_ok_mono (bound bound' : Z) (level : PriceLevel.t) :
  bound <= bound' -> seq_ok bound level -> seq_ok bound' level.
Proof.
  intros Hle [Hs Hb]. split; [done|].
  eapply Forall_impl; [exact Hb|]. simpl. lia.
Qed.

Lemma seq_ok_appended (bound : Z) (level : PriceLevel.t) (order : Order.t) :
  bound < Order.SequenceNum order ->
  seq_ok bound level ->
  seq_ok (Order.SequenceNum order) (appended level order).
Proof.
  intros Hlt [Hs Hb]. unfold seq_ok, bySequence, appended in *. simpl. split.
  - apply StronglySorted_app_2; [|done|repeat constructor].
    rewrite Forall_forall in Hb. intros a b Ha Hb'.
    apply list_elem_of_singleton in Hb' as ->. specialize (Hb a Ha). lia.
  - apply Forall_app. split; [|by repeat constructor].
    eapply Forall_impl; [exact Hb|]. simpl. lia.
Qed.

Lemma seq_ok_afterLoop (bound : Z) (level : PriceLevel.t) (orderID : string)
    (order : Order.t) :
  seq_ok bound level -> seq_ok bound (afterLoop level orderID order).
Proof.
  intros [Hs Hb]. unfold afterLoop.
  destruct (removeLoop orderID [] (PriceLevel.Orders level)) as [orders|] eqn:Hloop;
    [|done].
  apply removeLoop_Some in Hloop as (before & o & after & Horders & _ & _ & ->).
  unfold seq_ok, bySequence in *. rewrite Horders in Hs, Hb. simpl.
  apply StronglySorted_app in Hs as (Hcross & Hsb & Hsa).
  apply StronglySorted_cons in Hsa as [_ Hsa].
  apply Forall_app in Hb as [Hbb Hba]. apply Forall_cons in Hba as [_ Hba].
  split.
  - apply StronglySorted_app_2; [|done|done].
    intros a b Ha Hb'. apply Hcross; [done|]. by apply list_elem_of_further.
  - by apply Forall_app.
Qed.

Lemma seq_inv_AddOrder (ob : OrderBook) (order : Order.t) :
  MinInt64 <= sequence ob < MaxInt64 -> seq_inv ob -> seq_inv (AddOrder ob order).
Proof.
  intros Hrange Hinv buy.
  assert (wrap_int64 (sequence ob + 1) = sequence ob + 1) as Hw.
  { apply wrap_int64_small. unfold MinInt64, MaxInt64 in *. lia. }
  rewrite sequence_AddOrder, Hw, treeOf_AddOrder.
  assert (Forall (fun n => seq_ok (sequence ob + 1) (redblacktree.Value n))
            (redblacktree.nodes (treeOf buy ob))) as Hold.
  { eapply Forall_impl; [apply Hinv|]. simpl. intros n. apply seq_ok_mono. lia. }
  destruct (Bool.eqb buy (onBuySide order)); [|done].
  assert (Order.SequenceNum (stamp ob order) = sequence ob + 1) as Hstamp.
  { unfold stamp. simpl. exact Hw. }
  destruct (redblacktree.Get (treeOf buy ob) (Order.Price order)) as [level|] eqn:Hget.
  - apply (Forall_Value_store _ (seq_ok (sequence ob + 1))); [|done].
    rewrite <- Hstamp. apply (seq_ok_appended (sequence ob)); [lia|].
    destruct (get_Some_Value _ _ _ _ Hget) as (n & Hn & <-).
    specialize (Hinv buy). rewrite Forall_forall in Hinv. by apply Hinv.
  - apply (Forall_Value_put _ (seq_ok (sequence ob + 1))); [|done].
    rewrite <- Hstamp. apply (seq_ok_appended (sequence ob)); [lia|].
    split; constructor.
Qed.

Lemma seq_inv_RemoveOrder (ob : OrderBook) (orderID : string) :
  seq_inv ob -> seq_inv (fst (RemoveOrder ob orderID)).
Proof.
  intros Hinv buy. rewrite sequence_RemoveOrder, treeOf_RemoveOrder.
  specialize (Hinv buy).
  destruct (OrderMap ob !! orderID) as [order|]; [|done].
  destruct (Bool.eqb buy (onBuySide order)); [|done].
  destruct (redblacktree.Get (treeOf buy ob) (Order.Price order)) as [level|] eqn:Hget;
    [|done].
  cbv zeta. destruct (_ =? _)%nat.
  - by apply (Forall_Value_remove_store _ (seq_ok (sequence ob))).
  - apply (Forall_Value_store _ (seq_ok (sequence ob))); [|done].
    apply seq_ok_afterLoop.
    destruct (get_Some_Value _ _ _ _ Hget) as (n & Hn & <-).
    rewrite Forall_forall in Hinv. by apply Hinv.
Qed.

Lemma seq_inv_run (ops : list Op) (ob : OrderBook) :
  MinInt64 <= sequence ob ->
  sequence ob + Z.of_nat (length ops) <= MaxInt64 ->
  seq_inv ob -> seq_inv (run ops ob).
Proof.
  revert ob. induction ops as [|[order|orderID] ops IH]; intros ob Hlo Hhi Hinv.
  - done.
  - simpl length in Hhi. unfold run. cbn [fold_left step]. apply IH.
    + rewrite sequence_AddOrder, wrap_int64_small; lia.
    + rewrite sequence_AddOrder, wrap_int64_small; lia.
    + apply seq_inv_AddOrder; [lia|done].
  - simpl length in Hhi. unfold run. cbn [fold_left step]. apply IH.
    + rewrite sequence_RemoveOrder. lia.
    + rewrite sequence_RemoveOrder. lia.
    + by apply seq_inv_RemoveOrder.
Qed.

(** X11.  Along a run from [NewOrderBook] of at most [MaxInt64] calls in
    which no identifier is added while it is indexed, every level keeps
    its orders in admission order: sequence numbers strictly increase
    from the head of the level to its tail, so the head is the oldest
    order at that price, and none exceeds the counter. *)
Theorem levels_in_admission_order (symbol : string) (ops : list Op) :
  Z.of_nat (length ops) <= MaxInt64 ->
  freshAdds ops (NewOrderBook symbol) ->
  forall buy level,
    level ∈ levelsOf (treeOf buy (run ops (NewOrderBook symbol))) ->
    bySequence (PriceLevel.Orders level) /\
    Forall (fun o => Order.SequenceNum o <= sequence (run ops (NewOrderBook symbol)))
      (PriceLevel.Orders level).
Proof.
  intros Hlen _ buy level Hin.
  assert (seq_inv (run ops (NewOrderBook symbol))) as Hinv.
  { apply seq_inv_run.
    - unfold MinInt64. simpl. lia.
    - simpl. lia.
    - intros []; constructor. }
  specialize (Hinv buy). rewrite Forall_forall in Hinv.
  unfold levelsOf in Hin.
  change (map redblacktree.Value ?l) with (redblacktree.Value <$> l) in Hin.
  apply list_elem_of_fmap in Hin as [n [-> Hn]]. by apply Hinv.
Qed.

Lemma levels_in_admission_order_witness :
  bySequence (PriceLevel.Orders levelABC).
Proof.
  assert (Z.of_nat (length [OpAdd orderA; OpAdd orderB; OpAdd orderC]) <= MaxInt64)
    as Hlen by (vm_compute; discriminate).
  assert (freshAdds [OpAdd orderA; OpAdd orderB; OpAdd orderC]
            (NewOrderBook "BTC-USD"%string)) as Hfresh by (repeat split).
  destruct (levels_in_admission_order "BTC-USD"%string
              [OpAdd orderA; OpAdd orderB; OpAdd orderC] Hlen Hfresh true levelABC)
    as [Hsorted _].
  - vm_compute. apply list_elem_of_here.
  - exact Hsorted.
Defined.

(** ** [Size] and the resting orders *)

Section TreeCount.
Import redblacktree.
Context {V : Type} (c : Comparator) (f : V -> nat).
Implicit Types (k : Z) (v : V) (ns : list (Node V)).

Lemma total_store k v old ns :
  get c k ns = Some old ->
  (sum_list_with (fun n => f (Value n)) (store c k v ns) + f old
   = sum_list_with (fun n => f (Value n)) ns + f v)%nat.
Proof.
  induction ns as [|n ns IH]; simpl; [done|].
  destruct (c k (Key n) =? 0).
  - intros [= <-]. simpl. lia.
  - destruct (c k (Key n) <? 0); [done|].
    intros Hget. simpl. specialize (IH Hget). lia.
Qed.

Lemma total_put_new k v ns :
  get c k ns = None ->
  (sum_list_with (fun n => f (Value n)) (put c k v ns)
   = sum_list_with (fun n => f (Value n)) ns + f v)%nat.
Proof.
  induction ns as [|n ns IH]; simpl; [lia|].
  destruct (c k (Key n) =? 0); [done|].
  destruct (c k (Key n) <? 0); simpl; [lia|].
  intros Hget. specialize (IH Hget). lia.
Qed.

Lemma total_remove k old ns :
  get c k ns = Some old ->
  (sum_list_with (fun n => f (Value n)) (remove c k ns) + f old
   = sum_list_with (fun n => f (Value n)) ns)%nat.
Proof.
  induction ns as [|n ns IH]; simpl; [done|].
  destruct (c k (Key n) =? 0).
  - intros [= <-]. lia.
  - destruct (c k (Key n) <? 0); [done|].
    intros Hget. simpl. specialize (IH Hget). lia.
Qed.
End TreeCount.

Lemma restingIn_AddOrder (buy : bool) (ob : OrderBook) (order : Order.t) :
  restingIn (treeOf buy (AddOrder ob order))
  = (restingIn (treeOf buy ob) + if Bool.eqb buy (onBuySide order) then 1 else 0)%nat.
Proof.
  rewrite treeOf_AddOrder. destruct (Bool.eqb buy (onBuySide order)); [|lia].
  unfold restingIn.
  destruct (redblacktree.Get (treeOf buy ob) (Order.Price order)) as [level|] eqn:Hget.
  - unfold redblacktree.Store. simpl.
    pose proof (total_store _ (fun l => length (PriceLevel.Orders l)) _
                  (appended level (stamp ob order)) _ _ Hget) as Htotal.
    simpl in Htotal. rewrite length_app in Htotal. simpl in Htotal. lia.
  - unfold redblacktree.Put. simpl.
    by rewrite (total_put_new _ (fun l => length (PriceLevel.Orders l)) _ _ _ Hget).
Qed.

Lemma restingIn_RemoveOrder (buy : bool) (ob : OrderBook) (orderID : string) :
  book_inv ob ->
  (restingIn (treeOf buy (fst (RemoveOrder ob orderID)))
   + match OrderMap ob !! orderID with
     | Some order => if Bool.eqb buy (onBuySide order) then 1 else 0
     | None => 0
     end
   = restingIn (treeOf buy ob))%nat.
Proof.
  intros Hinv. rewrite treeOf_RemoveOrder.
  destruct (OrderMap ob !! orderID) as [order|] eqn:Hidx; [|lia].
  destruct (book_inv_live ob orderID order Hinv Hidx)
    as (level & before & after & _ & Hget & Horders & Hid & Hbefore).
  destruct Hinv as (Hok & _ & _).
  destruct (Bool.eqb_spec buy (onBuySide order)) as [->|]; [|lia].
  rewrite getTree_order in Hget. rewrite Hget. cbv zeta.
  assert (PriceLevel.Orders (afterLoop level orderID order) = before ++ after) as Hafter.
  { unfold afterLoop. by rewrite Horders, (removeLoop_first orderID order [] before after). }
  destruct (book_ok_treeOf ob (onBuySide order) Hok) as [Hc _ _].
  unfold restingIn, redblacktree.Get in *.
  pose proof (total_store _ (fun l => length (PriceLevel.Orders l)) _
                (afterLoop level orderID order) _ _ Hget) as Hstored.
  simpl in Hstored. rewrite Hafter, Horders, !length_app in Hstored. simpl in Hstored.
  rewrite Hafter.
  destruct (before ++ after) eqn:Hrest; simpl.
  - assert (redblacktree.get (redblacktree.Cmp (treeOf (onBuySide order) ob))
              (Order.Price order)
              (redblacktree.store (redblacktree.Cmp (treeOf (onBuySide order) ob))
                 (Order.Price order) (afterLoop level orderID order)
                 (redblacktree.nodes (treeOf (onBuySide order) ob)))
            = Some (afterLoop level orderID order)) as Hget'.
    { rewrite Hc. rewrite get_store; [|apply _]. rewrite Hc in Hget. by rewrite Hget. }
    pose proof (total_remove _ (fun l => length (PriceLevel.Orders l)) _ _ _ Hget')
      as Hremoved.
    simpl in Hremoved. rewrite Hafter in Hremoved. simpl in Hremoved.
    apply (f_equal length) in Hrest. rewrite length_app in Hrest. simpl in Hrest. lia.
  - apply (f_equal length) in Hrest. rewrite length_app in Hrest. simpl in Hrest. lia.
Qed.

(** X12.  In a book built from fresh, unfilled adds, [Size] is the
    number of orders resting in the levels of the two trees. *)
Theorem Disciplined_Size_resting (ob : OrderBook) :
  Disciplined ob -> Size ob = resting ob.
Proof.
  intros Hd. unfold Size, resting. f_equal.
  change (BuyTree ob) with (treeOf true ob). change (SellTree ob) with (treeOf false ob).
  induction Hd as [symbol|ob order Hd IH Hfresh Hfilled|ob orderID Hd IH].
  - done.
  - rewrite OrderMap_AddOrder, map_size_insert_None by done.
    rewrite !restingIn_AddOrder. destruct (onBuySide order); simpl in *; lia.
  - pose proof (Disciplined_book_inv ob Hd) as Hinv.
    pose proof (restingIn_RemoveOrder true ob orderID Hinv) as Hb.
    pose proof (restingIn_RemoveOrder false ob orderID Hinv) as Hs.
    rewrite OrderMap_RemoveOrder, map_size_delete.
    destruct (OrderMap ob !! orderID) as [order|] eqn:Hidx; unfold id; [|lia].
    assert (size (OrderMap ob) <> 0%nat).
    { intros Hz. apply map_size_empty_inv in Hz. rewrite Hz in Hidx.
      by rewrite lookup_empty in Hidx. }
    destruct (onBuySide order); cbn [Bool.eqb] in Hb, Hs; lia.
Qed.

Lemma Disciplined_Size_resting_witness : Size bookABC = resting bookABC.
Proof. apply (Disciplined_Size_resting bookABC). apply Disciplined_bookABC. Defined.

(** ** What a removal leaves alone *)

(** X13.  On a well-formed book [RemoveOrder] changes neither the
    symbol nor the counter, and when the identifier resolves to an
    order it touches nothing but the level at that order's price on
    that order's side: the tree of the other side is the same tree, and
    every other price of the order's side answers as before. *)
Theorem RemoveOrder_frame (ob : OrderBook) (orderID : string) :
  book_ok ob ->
  Symbol (fst (RemoveOrder ob orderID)) = Symbol ob /\
  sequence (fst (RemoveOrder ob orderID)) = sequence ob /\
  (forall order,
      GetOrder ob orderID = Some order ->
      (Order.Side order = Buy ->
       SellTree (fst (RemoveOrder ob orderID)) = SellTree ob) /\
      (Order.Side order <> Buy ->
       BuyTree (fst (RemoveOrder ob orderID)) = BuyTree ob) /\
      (forall k, k <> Order.Price order ->
         redblacktree.Get (getTree (fst (RemoveOrder ob orderID)) (Order.Side order)) k
         = redblacktree.Get (getTree ob (Order.Side order)) k)).
Proof.
  intros Hok. split; [apply Symbol_RemoveOrder|]. split; [apply sequence_RemoveOrder|].
  intros order Hidx. unfold GetOrder in Hidx.
  assert (onBuySide order = true <-> Order.Side order = Buy) as Hside.
  { unfold onBuySide. apply String.eqb_eq. }
  split; [|split].
  - intros Hbuy. apply Hside in Hbuy. change (SellTree ?b) with (treeOf false b).
    by rewrite treeOf_RemoveOrder, Hidx, Hbuy.
  - intros Hsell. change (BuyTree ?b) with (treeOf true b).
    rewrite treeOf_RemoveOrder, Hidx.
    destruct (onBuySide order) eqn:Hb; [|done]. by destruct Hsell; apply Hside.
  - intros k Hk. rewrite !getTree_order, treeOf_RemoveOrder, Hidx, Bool.eqb_reflx.
    pose proof (book_ok_treeOf ob (onBuySide order) Hok) as Htree.
    destruct (redblacktree.Get (treeOf (onBuySide order) ob) (Order.Price order))
      as [level|] eqn:Hget; [|done].
    cbv zeta.
    assert (tree_ok (cmpOf (onBuySide order))
              (redblacktree.Store (treeOf (onBuySide order) ob) (Order.Price order)
                 (afterLoop level orderID order))) as Hstored.
    { apply tree_ok_Store; [apply _| |done].
      pose proof (tree_ok_Get_price (cmpOf (onBuySide order)) _ _ _ Htree Hget) as Hp.
      unfold afterLoop. by destruct (removeLoop _ _ _). }
    transitivity (redblacktree.Get
                    (redblacktree.Store (treeOf (onBuySide order) ob) (Order.Price order)
                       (afterLoop level orderID order)) k).
    + destruct (_ =? _)%nat; [|done].
      by rewrite (Get_Remove_ne (cmpOf (onBuySide order))).
    + by rewrite (Get_Store_ne (cmpOf (onBuySide order))).
Qed.

Lemma RemoveOrder_frame_witness :
  SellTree (fst (RemoveOrder bookTwoSided "D")) = SellTree bookTwoSided /\
  redblacktree.Get (getTree (fst (RemoveOrder bookTwoSided "D")) Buy) 100
  = redblacktree.Get (getTree bookTwoSided Buy) 100.
Proof.
  destruct (RemoveOrder_frame bookTwoSided "D") as (_ & _ & Hframe); [book_ok_by_eval|].
  destruct (Hframe (Order.setSequenceNum orderD 4)) as (Hsell & _ & Hother).
  - vm_compute. reflexivity.
  - split; [apply Hsell; reflexivity | apply (Hother 100); discriminate].
Defined.

(** ** No matching inside the book *)

(** X14.  [AddOrder] never matches.  On a well-formed book, a buy
    order priced at or above the best ask is rested unfilled like any
    other: the best ask stays, the best bid is then at or above it, and
    [GetSpread] reports their difference, which is zero or negative.
    The same holds for an order of any other side priced at or below
    the best bid. *)
Theorem AddOrder_never_matches (ob : OrderBook) (order : Order.t) :
  book_ok ob ->
  GetOrder (AddOrder ob order) (Order.ID order) = Some (stamp ob order) /\
  Order.FilledQty (stamp ob order) = Order.FilledQty order /\
  (Order.Side order = Buy ->
   forall ask, GetBestAsk ob = (ask, true) -> ask <= Order.Price order ->
     GetBestAsk (AddOrder ob order) = (ask, true) /\
     exists bid, GetBestBid (AddOrder ob order) = (bid, true) /\
                 ask <= bid /\ GetSpread (AddOrder ob order) = ask - bid) /\
  (Order.Side order <> Buy ->
   forall bid, GetBestBid ob = (bid, true) -> Order.Price order <= bid ->
     GetBestBid (AddOrder ob order) = (bid, true) /\
     exists ask, GetBestAsk (AddOrder ob order) = (ask, true) /\
                 ask <= bid /\ GetSpread (AddOrder ob order) = ask - bid).
Proof.
  intros Hok. pose proof (bestKey_AddOrder ob order Hok) as Hbest.
  split; [unfold GetOrder; rewrite OrderMap_AddOrder; apply lookup_insert_eq|].
  split; [done|].
  split; intros Hside.
  - assert (onBuySide order = true) as Hb by (by apply String.eqb_eq).
    rewrite Hb in Hbest. simpl in Hbest.
    intros ask Hask Hcross.
    assert (GetBestAsk (AddOrder ob order) = (ask, true)) as Hask'.
    { rewrite GetBestAsk_bestKey in *.
      change (SellTree ?b) with (treeOf false b) in *.
      by rewrite treeOf_AddOrder, Hb. }
    split; [done|].
    eexists. split; [by rewrite GetBestBid_bestKey, Hbest|]. split.
    + destruct (bestKey (BuyTree ob)) as [b|]; [|done].
      pose proof (buyComparator_le (Order.Price order) b).
      destruct (Z.leb_spec (buyComparator (Order.Price order) b) 0); lia.
    + unfold GetSpread. rewrite Hask', GetBestBid_bestKey, Hbest. reflexivity.
  - assert (onBuySide order = false) as Hb.
    { unfold onBuySide. by apply String.eqb_neq. }
    rewrite Hb in Hbest. simpl in Hbest.
    intros bid Hbid Hcross.
    assert (GetBestBid (AddOrder ob order) = (bid, true)) as Hbid'.
    { rewrite GetBestBid_bestKey in *.
      change (BuyTree ?b) with (treeOf true b) in *.
      by rewrite treeOf_AddOrder, Hb. }
    split; [done|].
    eexists. split; [by rewrite GetBestAsk_bestKey, Hbest|]. split.
    + destruct (bestKey (SellTree ob)) as [a|]; [|done].
      pose proof (sellComparator_le (Order.Price order) a).
      destruct (Z.leb_spec (sellComparator (Order.Price order) a) 0); lia.
    + unfold GetSpread. rewrite Hbid', GetBestAsk_bestKey, Hbest. reflexivity.
Qed.

Lemma AddOrder_never_matches_witness :
  GetBestAsk (AddOrder bookTwoSided (limitOrder "X" Buy 104 1 0)) = (103, true) /\
  exists bid, GetBestBid (AddOrder bookTwoSided (limitOrder "X" Buy 104 1 0)) = (bid, true) /\
              103 <= bid /\
              GetSpread (AddOrder bookTwoSided (limitOrder "X" Buy 104 1 0)) = 103 - bid.
Proof.
  destruct (AddOrder_never_matches bookTwoSided (limitOrder "X" Buy 104 1 0))
    as (_ & _ & Hbuy & _); [book_ok_by_eval|].
  apply (Hbuy eq_refl 103); [vm_compute; reflexivity | vm_compute; discriminate].
Defined.

(** ** Orders rest where they belong *)

Lemma placed_levels_AddOrder (ob : OrderBook) (order : Order.t) :
  book_ok ob ->
  (forall buy, Forall (fun n => placed buy (redblacktree.Value n))
                 (redblacktree.nodes (treeOf buy ob))) ->
  forall buy, Forall (fun n => placed buy (redblacktree.Value n))
                (redblacktree.nodes (treeOf buy (AddOrder ob order))).
Proof.
  intros Hok Hinv buy. rewrite treeOf_AddOrder.
  destruct (Bool.eqb_spec buy (onBuySide order)) as [->|]; [|done].
  pose proof (book_ok_treeOf ob (onBuySide order) Hok) as Htree.
  destruct (redblacktree.Get (treeOf (onBuySide order) ob) (Order.Price order))
    as [level|] eqn:Hget.
  - apply (Forall_Value_store _ (placed (onBuySide order))); [|done].
    unfold placed, appended. simpl. apply Forall_app. split.
    + destruct (get_Some_Value _ _ _ _ Hget) as (n & Hn & <-).
      specialize (Hinv (onBuySide order)). rewrite Forall_forall in Hinv.
      by apply Hinv.
    + constructor; [|constructor]. simpl. split; [|done].
      symmetry. by eapply (tree_ok_Get_price (cmpOf _)).
  - apply (Forall_Value_put _ (placed (onBuySide order))); [|done].
    unfold placed, appended. simpl. by repeat constructor.
Qed.

Lemma placed_levels_RemoveOrder (ob : OrderBook) (orderID : string) :
  (forall buy, Forall (fun n => placed buy (redblacktree.Value n))
                 (redblacktree.nodes (treeOf buy ob))) ->
  forall buy, Forall (fun n => placed buy (redblacktree.Value n))
                (redblacktree.nodes (treeOf buy (fst (RemoveOrder ob orderID)))).
Proof.
  intros Hinv buy. rewrite treeOf_RemoveOrder. specialize (Hinv buy).
  destruct (OrderMap ob !! orderID) as [order|]; [|done].
  destruct (Bool.eqb buy (onBuySide order)); [|done].
  destruct (redblacktree.Get (treeOf buy ob) (Order.Price order)) as [level|] eqn:Hget;
    [|done].
  cbv zeta. destruct (_ =? _)%nat.
  - by apply (Forall_Value_remove_store _ (placed buy)).
  - apply (Forall_Value_store _ (placed buy)); [|done].
    assert (placed buy level) as Hlevel.
    { destruct (get_Some_Value _ _ _ _ Hget) as (n & Hn & <-).
      rewrite Forall_forall in Hinv. by apply Hinv. }
    unfold afterLoop.
    destruct (removeLoop orderID [] (PriceLevel.Orders level)) as [orders|] eqn:Hloop;
      [|done].
    apply removeLoop_Some in Hloop as (before & o & after & Horders & _ & _ & ->).
    unfold placed in *. simpl. rewrite Horders in Hlevel.
    apply Forall_app in Hlevel as [Hb Ha]. apply Forall_cons in Ha as [_ Ha].
    by apply Forall_app.
Qed.

(** X15.  In every book reached from [NewOrderBook] by [AddOrder] and
    [RemoveOrder] calls, reused identifiers included, each resting
    order sits in a level of its own price, and sits in the buy tree
    exactly when its side is ["BUY"]. *)
Theorem Reachable_orders_placed (ob : OrderBook) :
  Reachable ob ->
  (forall level o,
      level ∈ levelsOf (BuyTree ob) -> o ∈ PriceLevel.Orders level ->
      Order.Price o = PriceLevel.Price level /\ Order.Side o = Buy) /\
  (forall level o,
      level ∈ levelsOf (SellTree ob) -> o ∈ PriceLevel.Orders level ->
      Order.Price o = PriceLevel.Price level /\ Order.Side o <> Buy).
Proof.
  intros Hr.
  assert (forall buy, Forall (fun n => placed buy (redblacktree.Value n))
                        (redblacktree.nodes (treeOf buy ob))) as Hinv.
  { induction Hr.
    - intros []; constructor.
    - apply placed_levels_AddOrder; [by apply Reachable_book_ok|done].
    - by apply placed_levels_RemoveOrder. }
  assert (forall buy level o,
             level ∈ levelsOf (treeOf buy ob) -> o ∈ PriceLevel.Orders level ->
             Order.Price o = PriceLevel.Price level /\ onBuySide o = buy) as Hplaced.
  { intros buy level o Hin Ho. unfold levelsOf in Hin.
    change (map redblacktree.Value ?l) with (redblacktree.Value <$> l) in Hin.
    apply list_elem_of_fmap in Hin as [n [-> Hn]].
    specialize (Hinv buy). rewrite Forall_forall in Hinv.
    specialize (Hinv n Hn). unfold placed in Hinv. rewrite Forall_forall in Hinv.
    by apply Hinv. }
  split; intros level o Hin Ho.
  - destruct (Hplaced true level o Hin Ho) as [Hp Hs]. split; [done|].
    by apply String.eqb_eq.
  - destruct (Hplaced false level o Hin Ho) as [Hp Hs]. split; [done|].
    by apply String.eqb_neq.
Qed.

Lemma Reachable_orders_placed_witness :
  Order.Price stampedB2 = PriceLevel.Price
                            (PriceLevel.mk 100 [stampedA; stampedB; stampedC; stampedB2] 13) /\
  Order.Side stampedB2 = Buy.
Proof.
  destruct (Reachable_orders_placed bookReused) as [Hbuy _].
  - exact (Reachable_add _ _ (Reachable_add _ _ (Reachable_add _ _
             (Reachable_add _ _ (Reachable_new _))))).
  - apply Hbuy.
    + vm_compute. apply list_elem_of_here.
    + vm_compute. do 3 apply list_elem_of_further. apply list_elem_of_here.
Defined.
